(** * raw_image_processor: the parameter scaling, the enhancement pipeline
      and the orchestration of [process_raw_image], embedded in Rocq.

    Source: [raw_image_processor.py].

    Conventions of the embedding.
    - A Python [float] (and a NumPy [float32] sample) is modelled by the
      rational number it denotes; arithmetic on them is exact.  The
      constants of the program (3.0, 127.5, 255) and the inputs at which a
      statement is shown to fail (0.5, 3.75, 95.75, 130) are dyadic
      rationals whose intermediate results are exactly representable, so
      the values computed there are those of the floating-point program.
    - A [uint8] sample is a [byte]; [u8] reads it as an integer.
    - A Python exception is a value [Raise e]; statements that can raise
      live in a state-and-exception monad over the [world] (file system
      and standard output), so that effects performed before a [raise]
      persist, as they do in Python.
    - The numerical kernels of OpenCV (Gaussian convolution, non-local
      means, colour-space conversion), the RAW decoder, the JPEG encoder and
      the operating-system calls are operations of the class [Externals]:
      the program is verified for every implementation of them. *)

From Stdlib Require Import ZArith QArith Qround Qminmax Qabs Lqa Lia.
From Stdlib.Strings Require Import Byte Ascii String.
From stdpp Require Import gmap strings list.

Local Open Scope Q_scope.

(** ** Python numbers *)

(** [int(x)] on a float: truncation toward zero. *)
Definition truncate (q : Q) : Z := Z.quot (Qnum q) (Zpos (Qden q)).

(** [int(n)] on an [int]: the identity. *)
Definition py_int (n : Z) : Z := n.

(** Python's [round(x)]: nearest integer, ties to the even one.  It occurs
    nowhere in the source; it is the function the specification names. *)
Definition py_round (q : Q) : Z :=
  let f := Qfloor q in
  match Qcompare (q - inject_Z f) (1 # 2) with
  | Lt => f
  | Gt => (f + 1)%Z
  | Eq => if Z.even f then f else (f + 1)%Z
  end.

(** ** tkinter variables

    A [ttk.Scale] writes a floating-point number into the variable it is
    bound to.  [DoubleVar.get] returns it; [IntVar.get] returns
    [getint(value)], and falls back to [int(getdouble(value))] when the
    stored text is not an integer literal: in both cases the integer part. *)
Definition DoubleVar_get (v : Q) : Q := v.
Definition IntVar_get (v : Q) : Z := truncate v.

(** The six slider variables created in [RawImageProcessorApp.__init__]. *)
Record RawImageProcessorApp : Type := {
  self_sharpening_strength : Q;   (* tk.DoubleVar, Scale 0.0 .. 100.0 *)
  self_blur_sigma : Q;            (* tk.IntVar,    Scale 1 .. 100     *)
  self_jpeg_quality : Q;          (* tk.IntVar,    Scale 50 .. 100    *)
  self_noise_reduction : Q;       (* tk.DoubleVar, Scale 0.0 .. 100.0 *)
  self_saturation : Q;            (* tk.DoubleVar, Scale 0.0 .. 100.0 *)
  self_contrast : Q               (* tk.DoubleVar, Scale 0.0 .. 100.0 *)
}.

(** The keyword arguments of [process_raw_image]. *)
Record FilterParameters : Type := {
  sharpening_strength : Q;
  blur_sigma : Z;
  jpeg_quality : Z;
  noise_reduction : Q;
  saturation : Q;
  contrast : Q
}.

(** [do_process_image], lines 285-291: "Scale parameters from 0-100 range
    to their appropriate ranges". *)
Definition scale_parameters (self : RawImageProcessorApp) : FilterParameters :=
  {| sharpening_strength := DoubleVar_get (self_sharpening_strength self) / 100 * 3;
     blur_sigma := py_int (IntVar_get (self_blur_sigma self));
     jpeg_quality := py_int (IntVar_get (self_jpeg_quality self));
     noise_reduction := DoubleVar_get (self_noise_reduction self) / 100;
     saturation := DoubleVar_get (self_saturation self) / 50;
     contrast := DoubleVar_get (self_contrast self) / 50 |}.

(** The state set by [reset_parameters] (and by [__init__]). *)
Definition reset_parameters : RawImageProcessorApp :=
  {| self_sharpening_strength := 50;
     self_blur_sigma := 3;
     self_jpeg_quality := 95;
     self_noise_reduction := 30;
     self_saturation := 55;
     self_contrast := 55 |}.

(** Every slider value lies in [0, 100]. *)
Definition sliders_in_0_100 (self : RawImageProcessorApp) : Prop :=
  (0 <= self_sharpening_strength self <= 100) /\
  (0 <= self_blur_sigma self <= 100) /\
  (0 <= self_jpeg_quality self <= 100) /\
  (0 <= self_noise_reduction self <= 100) /\
  (0 <= self_saturation self <= 100) /\
  (0 <= self_contrast self <= 100).

(** Every slider value lies in the range its [ttk.Scale] is created with
    ([from_], [to]). *)
Definition sliders_in_scale_range (self : RawImageProcessorApp) : Prop :=
  (0 <= self_sharpening_strength self <= 100) /\
  (1 <= self_blur_sigma self <= 100) /\
  (50 <= self_jpeg_quality self <= 100) /\
  (0 <= self_noise_reduction self <= 100) /\
  (0 <= self_saturation self <= 100) /\
  (0 <= self_contrast self <= 100).

(** The native ranges documented for [FilterParameters]. *)
Definition in_native_ranges (p : FilterParameters) : Prop :=
  (0 <= sharpening_strength p <= 3) /\
  (1 <= blur_sigma p <= 100)%Z /\
  (50 <= jpeg_quality p <= 100)%Z /\
  (0 <= noise_reduction p <= 1) /\
  (0 <= saturation p <= 2) /\
  (0 <= contrast p <= 2).

(** A slider position between two marks, and all sliders at their left end. *)
Definition sliders_between_marks : RawImageProcessorApp :=
  {| self_sharpening_strength := 50;
     self_blur_sigma := 15 # 4;
     self_jpeg_quality := 383 # 4;
     self_noise_reduction := 30;
     self_saturation := 55;
     self_contrast := 55 |}.

Definition sliders_all_zero : RawImageProcessorApp :=
  {| self_sharpening_strength := 0;
     self_blur_sigma := 0;
     self_jpeg_quality := 0;
     self_noise_reduction := 0;
     self_saturation := 0;
     self_contrast := 0 |}.

(** ** Exceptions, the world, and the monad of statements *)

(** A Python exception object of a class derived from [Exception]:
    [str(e)] is its message. *)
Record exn : Type := Exn { exn_class : string; exn_message : string }.

Definition str (e : exn) : string := exn_message e.

(** The outcome of evaluating an expression that may raise. *)
Inductive result (A : Type) : Type :=
| Ok (a : A)
| Raise (e : exn).
Arguments Ok {A} a.
Arguments Raise {A} e.

#[global] Instance result_ret : MRet result := fun A a => Ok a.
#[global] Instance result_bind : MBind result := fun A B f r =>
  match r with
  | Ok a => f a
  | Raise e => Raise e
  end.

(** The file system: which paths exist, and as what. *)
Inductive node : Type := File | Dir.

#[global] Instance node_eq_dec : EqDecision node.
Proof. solve_decision. Defined.

(** What a call can observe and change: the file system and the lines
    printed so far (oldest first). *)
Record world : Type := World {
  fs : gmap string node;
  stdout : list string
}.

(** A statement: it runs in a world, returns or raises, and leaves a world
    behind in both cases. *)
Definition M (A : Type) : Type := world -> result A * world.

#[global] Instance M_ret : MRet M := fun A a w => (Ok a, w).
#[global] Instance M_bind : MBind M := fun A B f m w =>
  match m w with
  | (Ok a, w') => f a w'
  | (Raise e, w') => (Raise e, w')
  end.

(** A pure expression used as a statement. *)
Definition lift {A : Type} (r : result A) : M A := fun w => (r, w).

(** [print(s)] *)
Definition print (s : string) : M unit := fun w =>
  (Ok tt, {| fs := fs w; stdout := stdout w ++ [s] |}).

(** [try: body  except Exception as e: handler(e)] *)
Definition try_except {A : Type} (body : M A) (handler : exn -> M A) : M A :=
  fun w =>
    match body w with
    | (Ok a, w') => (Ok a, w')
    | (Raise e, w') => handler e w'
    end.

(** [os.path.exists(path)] *)
Definition os_path_exists (path : string) : M bool := fun w =>
  (Ok (bool_decide (is_Some (fs w !! path))), w).

(** ** Samples and arrays *)

(** The integer value of a [uint8] sample. *)
Definition u8 (b : byte) : Z := Z.of_N (Byte.to_N b).

(** The sample of value [z], for [0 <= z < 256]. *)
Definition byte_of_Z (z : Z) : byte := default x00 (Byte.of_N (Z.to_N z)).

(** The shape of an image array: [(h, w)] or [(h, w, c)]. *)
Inductive shape : Type :=
| Shape2 (h w : nat)
| Shape3 (h w c : nat).

#[global] Instance shape_eq_dec : EqDecision shape.
Proof. solve_decision. Defined.

(** The number of channels OpenCV sees. *)
Definition channels (s : shape) : nat :=
  match s with
  | Shape2 _ _ => 1
  | Shape3 _ _ c => c
  end.

(** An image array: its shape and its pixels in row-major order, each pixel
    the list of its channel samples. *)
Record ndarray (A : Type) : Type := Ndarray {
  arr_shape : shape;
  arr_data : list (list A)
}.
Arguments Ndarray {A} _ _.
Arguments arr_shape {A} _.
Arguments arr_data {A} _.

(** The sample of channel [c] of pixel [i]. *)
Definition sample {A : Type} (a : ndarray A) (i c : nat) : option A :=
  arr_data a !! i ≫= fun px => px !! c.

(** An elementwise operation ([a.astype(t)], [a - x], [a * x], [np.clip]). *)
Definition ndarray_map {A B : Type} (f : A -> B) (a : ndarray A) : ndarray B :=
  Ndarray (arr_shape a) (fmap (M:=list) f <$> arr_data a).

(** An elementwise operation on one channel: [a[:,:,c] = f(a[:,:,c])]. *)
Definition ndarray_map_channel {A : Type} (c : nat) (f : A -> A)
    (a : ndarray A) : ndarray A :=
  Ndarray (arr_shape a) (alter f c <$> arr_data a).

(** [a.astype(np.float32)] on a [uint8] array. *)
Definition astype_float32 (b : byte) : Q := inject_Z (u8 b).

(** [a.astype(np.uint8)] on a [float32] array: the fractional part is
    discarded. *)
Definition astype_uint8 (x : Q) : byte := byte_of_Z (truncate x mod 256).

(** [np.clip(x, lo, hi)] = [minimum(maximum(x, lo), hi)] *)
Definition np_clip (x lo hi : Q) : Q := Qmin (Qmax x lo) hi.

(** Python's [x > y] and [x != y] on floats. *)
Definition float_gt (x y : Q) : bool := negb (Qle_bool x y).
Definition float_ne (x y : Q) : bool := negb (Qeq_bool x y).

(** ** OpenCV *)

(** [cvRound]: nearest integer, ties to even. *)
Definition cvRound (x : Q) : Z := py_round x.

(** [saturate_cast<uchar>]: round, then clamp to [0, 255]. *)
Definition saturate_cast_uchar (x : Q) : byte :=
  byte_of_Z (Z.max 0 (Z.min 255 (cvRound x))).

Definition cv2_error (msg : string) : exn := Exn "cv2.error" msg.

(** The colour conversion codes the program uses. *)
Inductive color_code : Type :=
| COLOR_RGB2BGR
| COLOR_BGR2HSV
| COLOR_HSV2BGR
| COLOR_GRAY2BGR.

Definition IMWRITE_JPEG_QUALITY : Z := 1.

(** ** The external collaborators

    What the program calls and this repository does not contain.  The
    numerical kernels are uninterpreted functions of the whole source image,
    the filter parameters and the position of the output sample; the decoder,
    the encoder and [os.makedirs] are statements on the world. *)
Class Externals : Type := {
  (** the separable Gaussian convolution behind [cv2.GaussianBlur]:
      source, kernel size, (sigmaX, sigmaY), pixel index, channel *)
  gaussian_kernel : ndarray byte -> Z * Z -> Q * Q -> nat -> nat -> byte;
  (** the filter behind [cv2.fastNlMeansDenoisingColored]: source, h,
      hColor, templateWindowSize, searchWindowSize, pixel index, channel *)
  nlmeans_kernel : ndarray byte -> Q -> Q -> Z -> Z -> nat -> nat -> byte;
  (** the per-pixel conversions behind [cv2.cvtColor]: (b, g, r) to
      (h, s, v) and back *)
  bgr2hsv : byte * byte * byte -> byte * byte * byte;
  hsv2bgr : byte * byte * byte -> byte * byte * byte;
  (** [with rawpy.imread(path) as raw: raw.postprocess()] *)
  rawpy_imread_postprocess : string -> M (ndarray byte);
  (** [cv2.imwrite(filename, img, params)]: its boolean return value *)
  cv2_imwrite : string -> ndarray byte -> list Z -> M bool;
  (** [os.path.dirname(path)] *)
  os_path_dirname : string -> string;
  (** [os.makedirs(name)] *)
  os_makedirs : string -> M unit
}.

Section Program.
Context `{Externals}.

(** [Mat::empty()] *)
Definition mat_empty {A : Type} (a : ndarray A) : bool :=
  match arr_shape a with
  | Shape2 h w => bool_decide (h * w = 0)%nat
  | Shape3 h w c => bool_decide (h * w * c = 0)%nat
  end.

(** [cv2.GaussianBlur(src, ksize, sigmaX, sigmaY)] on an 8-bit image.  A
    non-positive [sigmaY] means [sigmaX]; a non-positive kernel size is
    replaced by [cvRound(sigma*3*2 + 1) | 1] when sigma is positive; the
    kernel size must then be positive and odd.  The result has the shape of
    the source. *)
Definition GaussianBlur (src : ndarray byte) (ksize : Z * Z)
    (sigmaX sigmaY : Q) : result (ndarray byte) :=
  if mat_empty src then Raise (cv2_error "!_src.empty()") else
  let sigma1 := sigmaX in
  let sigma2 := if Qle_bool sigmaY 0 then sigma1 else sigmaY in
  let auto k sigma :=
    if (k <=? 0)%Z && float_gt sigma 0
    then Z.lor (cvRound (sigma * 3 * 2 + 1)) 1 else k in
  let kw := auto (fst ksize) sigma1 in
  let kh := auto (snd ksize) sigma2 in
  if (0 <? kw)%Z && Z.odd kw && (0 <? kh)%Z && Z.odd kh then
    Ok (Ndarray (arr_shape src)
          (imap (fun i px =>
                   imap (fun c _ =>
                           gaussian_kernel src (kw, kh) (sigma1, sigma2) i c)
                        px)
                (arr_data src)))
  else Raise (cv2_error "ksize.width > 0 && ksize.width % 2 == 1").

(** [cv2.addWeighted(src1, alpha, src2, beta, gamma)]:
    [dst = saturate(src1*alpha + src2*beta + gamma)], for two arrays of the
    same size and type. *)
Definition addWeighted (src1 : ndarray byte) (alpha : Q) (src2 : ndarray byte)
    (beta gamma : Q) : result (ndarray byte) :=
  if decide (arr_shape src1 = arr_shape src2) then
    Ok (Ndarray (arr_shape src1)
          (zip_with
             (zip_with (fun a b =>
                saturate_cast_uchar
                  (astype_float32 a * alpha + astype_float32 b * beta + gamma)))
             (arr_data src1) (arr_data src2)))
  else Raise (cv2_error "The operation is neither 'array op array' (where arrays have the same size and the same number of channels)").

(** [cv2.fastNlMeansDenoisingColored(src, None, h, hColor,
    templateWindowSize, searchWindowSize)]: three or four 8-bit channels
    are required. *)
Definition fastNlMeansDenoisingColored (src : ndarray byte) (h hColor : Q)
    (templateWindowSize searchWindowSize : Z) : result (ndarray byte) :=
  if bool_decide (channels (arr_shape src) = 3%nat
                  \/ channels (arr_shape src) = 4%nat) then
    Ok (Ndarray (arr_shape src)
          (imap (fun i px =>
                   imap (fun c _ =>
                           nlmeans_kernel src h hColor templateWindowSize
                                          searchWindowSize i c)
                        px)
                (arr_data src)))
  else Raise (cv2_error "Type of input image should be CV_8UC3 or CV_8UC4!").

(** The per-pixel maps of [cv2.cvtColor]. *)
Definition swap_rb (px : list byte) : list byte :=
  match px with
  | c0 :: c1 :: c2 :: _ => [c2; c1; c0]
  | _ => px
  end.

Definition on_triple (f : byte * byte * byte -> byte * byte * byte)
    (px : list byte) : list byte :=
  match px with
  | c0 :: c1 :: c2 :: _ => let '(d0, d1, d2) := f (c0, c1, c2) in [d0; d1; d2]
  | _ => px
  end.

Definition gray_to_bgr (px : list byte) : list byte :=
  match px with
  | g :: _ => [g; g; g]
  | [] => []
  end.

Definition shape_hw3 (s : shape) : shape :=
  match s with
  | Shape2 h w => Shape3 h w 3
  | Shape3 h w _ => Shape3 h w 3
  end.

(** [cv2.cvtColor(src, code)] for the four codes in use; the result has
    three channels.  The source must not be empty and must have a channel
    count the code accepts. *)
Definition cvtColor (src : ndarray byte) (code : color_code)
    : result (ndarray byte) :=
  if mat_empty src then Raise (cv2_error "!_src.empty()") else
  let scn := channels (arr_shape src) in
  let dst (f : list byte -> list byte) : result (ndarray byte) :=
    Ok (Ndarray (shape_hw3 (arr_shape src)) (f <$> arr_data src)) in
  let bad : result (ndarray byte) :=
    Raise (cv2_error "Invalid number of channels in input image") in
  match code with
  | COLOR_RGB2BGR =>
      if bool_decide (scn = 3 \/ scn = 4)%nat then dst swap_rb else bad
  | COLOR_BGR2HSV =>
      if bool_decide (scn = 3 \/ scn = 4)%nat then dst (on_triple bgr2hsv)
      else bad
  | COLOR_HSV2BGR =>
      if bool_decide (scn = 3)%nat then dst (on_triple hsv2bgr) else bad
  | COLOR_GRAY2BGR =>
      if bool_decide (scn = 1)%nat then dst gray_to_bgr else bad
  end.

(** ** The enhancement pipeline ([process_raw_image], lines 48-90) *)

(** Lines 48-56: unsharp masking.  [sigmaY] keeps its default, 0. *)
Definition unsharp_mask (image_bgr : ndarray byte) (sharpening_strength : Q)
    (blur_sigma : Z) : result (ndarray byte) :=
  blurred ← GaussianBlur image_bgr (0, 0)%Z (inject_Z blur_sigma) 0;
  addWeighted image_bgr (1 + sharpening_strength)
              blurred (- sharpening_strength) 0.

(** Lines 58-63: noise reduction, if enabled. *)
Definition denoise (sharpened : ndarray byte) (noise_reduction : Q)
    : result (ndarray byte) :=
  if float_gt noise_reduction 0 then
    let h := noise_reduction * 10 in
    fastNlMeansDenoisingColored sharpened h h 7 21
  else Ok sharpened.

(** Lines 72-73: [hsv[:,:,1] = hsv[:,:,1] * saturation] and
    [hsv[:,:,1] = np.clip(hsv[:,:,1], 0, 255)]. *)
Definition adjust_saturation (hsv : ndarray Q) (saturation : Q) : ndarray Q :=
  let hsv := ndarray_map_channel 1 (fun s => s * saturation) hsv in
  ndarray_map_channel 1 (fun s => np_clip s 0 255) hsv.

(** Lines 81-83: [enhanced.astype(np.float32)],
    [(enhanced - 127.5) * contrast + 127.5],
    [np.clip(enhanced, 0, 255).astype(np.uint8)]. *)
Definition adjust_contrast (enhanced : ndarray byte) (contrast : Q)
    : ndarray byte :=
  let enhanced := ndarray_map astype_float32 enhanced in
  let enhanced :=
    ndarray_map (fun x => (x - (255 # 2)) * contrast + (255 # 2)) enhanced in
  ndarray_map astype_uint8 (ndarray_map (fun x => np_clip x 0 255) enhanced).

(** Lines 67-76: to HSV, the saturation adjustment if requested, back to
    BGR. *)
Definition hsv_round_trip (sharpened : ndarray byte) (saturation : Q)
    : result (ndarray byte) :=
  hsv8 ← cvtColor sharpened COLOR_BGR2HSV;
  let hsv := ndarray_map astype_float32 hsv8 in
  let hsv :=
    if float_ne saturation 1 then adjust_saturation hsv saturation
    else hsv in
  cvtColor (ndarray_map astype_uint8 hsv) COLOR_HSV2BGR.

(** Lines 65-85: colour enhancements. *)
Definition color_enhance (sharpened : ndarray byte) (saturation contrast : Q)
    : result (ndarray byte) :=
  if float_ne saturation 1 || float_ne contrast 1 then
    enhanced ← hsv_round_trip sharpened saturation;
    Ok (if float_ne contrast 1 then adjust_contrast enhanced contrast
        else enhanced)
  else Ok sharpened.

(** [len(enhanced.shape) == 2 or enhanced.shape[2] == 1] *)
Definition is_grayscale (s : shape) : bool :=
  match s with
  | Shape2 _ _ => true
  | Shape3 _ _ c => bool_decide (c = 1%nat)
  end.

(** Lines 87-90: "Ensure we're not returning a grayscale image". *)
Definition ensure_color (enhanced : ndarray byte) : M (ndarray byte) :=
  if is_grayscale (arr_shape enhanced) then
    print "Warning: Image appears to be grayscale, converting to color" ;;
    lift (cvtColor enhanced COLOR_GRAY2BGR)
  else mret enhanced.

(** Lines 48-90: from the BGR image to the image that is written. *)
Definition enhance (image_bgr : ndarray byte) (p : FilterParameters)
    : M (ndarray byte) :=
  sharpened ← lift (unsharp_mask image_bgr (sharpening_strength p)
                                 (blur_sigma p));
  sharpened ← lift (denoise sharpened (noise_reduction p));
  enhanced ← lift (color_enhance sharpened (saturation p) (contrast p));
  ensure_color enhanced.

(** ** The orchestration ([process_raw_image], lines 28-100) *)

(** Lines 34-37: "Create output directory if it doesn't exist". *)
Definition create_output_dir (output_path : string) : M unit :=
  let output_dir := os_path_dirname output_path in
  if bool_decide (output_dir ≠ "") then
    output_dir_exists ← os_path_exists output_dir;
    if negb output_dir_exists then os_makedirs output_dir else mret tt
  else mret tt.

(** Lines 45-96: from the decoded RGB image to the written file. *)
Definition develop (rgb_image : ndarray byte) (output_path : string)
    (p : FilterParameters) : M (option string) :=
  image_bgr ← lift (cvtColor rgb_image COLOR_RGB2BGR);
  enhanced ← enhance image_bgr p;
  _ ← cv2_imwrite output_path enhanced [IMWRITE_JPEG_QUALITY; jpeg_quality p];
  print ("Processed image saved to: " +:+ output_path) ;;
  mret (Some output_path).

(** Lines 39-96: decode, then develop. *)
Definition convert (input_path output_path : string) (p : FilterParameters)
    : M (option string) :=
  print ("Processing RAW image: " +:+ input_path) ;;
  rgb_image ← rawpy_imread_postprocess input_path;
  develop rgb_image output_path p.

(** Lines 29-96: the body of the [try]. *)
Definition process_raw_image_try (input_path output_path : string)
    (p : FilterParameters) : M (option string) :=
  input_exists ← os_path_exists input_path;
  if negb input_exists then
    print ("Error: Input file '" +:+ input_path +:+ "' does not exist.") ;;
    mret None
  else
    create_output_dir output_path ;;
    convert input_path output_path p.

(** Lines 98-100: the handler. *)
Definition process_raw_image_except (e : exn) : M (option string) :=
  print ("Error processing image: " +:+ str e) ;;
  mret None.

(** [process_raw_image(input_path, output_path, **p)]: [Some output_path]
    for the path, [None] for Python's [None]. *)
Definition process_raw_image (input_path output_path : string)
    (p : FilterParameters) : M (option string) :=
  try_except (process_raw_image_try input_path output_path p)
             process_raw_image_except.

(** ** Notions used in the statements *)

(** An array is rectangular: as many pixels as its shape says, each with as
    many samples as it has channels. *)
Definition wf_ndarray {A : Type} (a : ndarray A) : Prop :=
  match arr_shape a with
  | Shape2 h w => length (arr_data a) = (h * w)%nat
  | Shape3 h w _ => length (arr_data a) = (h * w)%nat
  end /\
  Forall (fun px => length px = channels (arr_shape a)) (arr_data a).

(** Two images of the same shape whose samples differ by at most [t]. *)
Definition within_tolerance (t : Z) (a b : ndarray byte) : Prop :=
  arr_shape a = arr_shape b /\
  Forall2 (Forall2 (fun x y => (Z.abs (u8 x - u8 y) <= t)%Z))
          (arr_data a) (arr_data b).

(** The blurred copy computed by line 50 for a positive [blur_sigma]. *)
Definition blurred_of (image_bgr : ndarray byte) (blur_sigma : Z)
    : ndarray byte :=
  Ndarray (arr_shape image_bgr)
    (imap (fun i px =>
             imap (fun c _ =>
                     gaussian_kernel image_bgr
                       (6 * blur_sigma + 1, 6 * blur_sigma + 1)%Z
                       (inject_Z blur_sigma, inject_Z blur_sigma) i c)
                  px)
          (arr_data image_bgr)).

(** [sharpened] is, sample by sample, the 8-bit clamp of
    [original * (1 + strength) + blurred * (-strength)], where [blurred] is
    the Gaussian blur of the image with sigma [sigma] on both axes. *)
Definition sharpened_by_formula (image_bgr sharpened : ndarray byte)
    (strength : Q) (sigma : Z) : Prop :=
  arr_shape sharpened = arr_shape image_bgr
  /\ (forall i c, sample image_bgr i c = None -> sample sharpened i c = None)
  /\ forall i c original,
       sample image_bgr i c = Some original ->
       exists blurred out,
         sample (blurred_of image_bgr sigma) i c = Some blurred
         /\ sample sharpened i c = Some out
         /\ u8 out
            = Z.max 0 (Z.min 255
                (cvRound (astype_float32 original * (1 + strength)
                          + astype_float32 blurred * (- strength)))).

(** What is left of the pipeline after the sharpening stage. *)
Definition after_unsharp_mask (sharpened : ndarray byte)
    (p : FilterParameters) : M (ndarray byte) :=
  sharpened ← lift (denoise sharpened (noise_reduction p));
  enhanced ← lift (color_enhance sharpened (saturation p) (contrast p));
  ensure_color enhanced.

(** The sample the contrast stage computes from the sample [x]. *)
Definition contrast_sample (contrast : Q) (x : byte) : byte :=
  astype_uint8
    (np_clip ((astype_float32 x - (255 # 2)) * contrast + (255 # 2)) 0 255).



(** A statement that removes no directory, whatever its outcome. *)
Definition keeps_dirs {A : Type} (m : M A) : Prop :=
  forall (w w' : world) (r : result A),
    m w = (r, w') ->
    forall d : string, fs w !! d = Some Dir -> fs w' !! d = Some Dir.

End Program.

(** ** A concrete implementation of the external collaborators

    Small executable stand-ins, used to run the program on concrete inputs. *)
Module Demo.

(** A two-tap horizontal mean, as a stand-in for the Gaussian convolution. *)
Definition mean_blur (src : ndarray byte) (ksize : Z * Z) (sigma : Q * Q)
    (i c : nat) : byte :=
  match sample src i c, sample src (S i) c with
  | Some a, Some b => byte_of_Z ((u8 a + u8 b) / 2)
  | Some a, None => a
  | None, _ => x00
  end.

(** The identity, as a stand-in for non-local means. *)
Definition keep_sample (src : ndarray byte) (h hColor : Q) (t s : Z)
    (i c : nat) : byte :=
  default x00 (sample src i c).

(** Hue in half degrees (0..179), saturation and value in 0..255. *)
Definition hsv_of_bgr (px : byte * byte * byte) : byte * byte * byte :=
  let '(b8, g8, r8) := px in
  let b := u8 b8 in let g := u8 g8 in let r := u8 r8 in
  let v := Z.max r (Z.max g b) in
  let m := Z.min r (Z.min g b) in
  let d := (v - m)%Z in
  let s := if (v =? 0)%Z then 0%Z else (255 * d / v)%Z in
  let hdeg :=
    if (d =? 0)%Z then 0%Z
    else if (v =? r)%Z then (60 * (g - b) / d)%Z
    else if (v =? g)%Z then (120 + 60 * (b - r) / d)%Z
    else (240 + 60 * (r - g) / d)%Z in
  (byte_of_Z ((hdeg mod 360) / 2), byte_of_Z s, byte_of_Z v).

Definition bgr_of_hsv (px : byte * byte * byte) : byte * byte * byte :=
  let '(h8, s8, v8) := px in
  let hdeg := (2 * u8 h8)%Z in
  let v := u8 v8 in
  let c := (v * u8 s8 / 255)%Z in
  let x := (c * (60 - Z.abs (hdeg mod 120 - 60)) / 60)%Z in
  let m := (v - c)%Z in
  let '(r, g, b) :=
    match (hdeg / 60)%Z with
    | 0%Z => (c, x, 0%Z)
    | 1%Z => (x, c, 0%Z)
    | 2%Z => (0%Z, c, x)
    | 3%Z => (0%Z, x, c)
    | 4%Z => (x, 0%Z, c)
    | _ => (c, 0%Z, x)
    end in
  (byte_of_Z (b + m), byte_of_Z (g + m), byte_of_Z (r + m)).

(** A 2 x 2 RGB image: red, green, blue, mid grey. *)
Definition decoded : ndarray byte :=
  Ndarray (Shape3 2 2 3)
    [ [xff; x00; x00]; [x00; xff; x00]; [x00; x00; xff]; [x82; x82; x82] ].

(** The decoder reads regular files only. *)
Definition decode_file (path : string) : M (ndarray byte) :=
  fun w =>
    match fs w !! path with
    | Some File => (Ok decoded, w)
    | _ => (Raise (Exn "rawpy.LibRawIOError" "Input/output error"), w)
    end.

(** The encoder raises on an empty image, returns [False] when the target
    cannot be opened for writing (here: it is a directory), and otherwise
    writes the file and returns [True]. *)
Definition imwrite_file (filename : string) (img : ndarray byte)
    (params : list Z) : M bool :=
  fun w =>
    if bool_decide (arr_data img = []) then
      (Raise (cv2_error "!_img.empty()"), w)
    else
      match fs w !! filename with
      | Some Dir => (Ok false, w)
      | _ => (Ok true, World (<[filename := File]> (fs w)) (stdout w))
      end.

(** [posixpath.dirname] *)
Definition is_sep (a : ascii) : bool := bool_decide (a = "/"%char).

Fixpoint drop_while (f : ascii -> bool) (l : list ascii) : list ascii :=
  match l with
  | a :: l' => if f a then drop_while f l' else l
  | [] => []
  end.

Definition posix_dirname (p : string) : string :=
  let head_rev := drop_while (fun a => negb (is_sep a)) (rev (list_ascii_of_string p)) in
  string_of_list_ascii
    (rev (if forallb is_sep head_rev then head_rev
          else drop_while is_sep head_rev)).

(** [os.makedirs]: the directory must not exist yet. *)
Definition mkdir_fresh (name : string) : M unit :=
  fun w =>
    match fs w !! name with
    | Some _ => (Raise (Exn "FileExistsError" name), w)
    | None => (Ok tt, World (<[name := Dir]> (fs w)) (stdout w))
    end.

Definition externals : Externals :=
  Build_Externals mean_blur keep_sample hsv_of_bgr bgr_of_hsv
                  decode_file imwrite_file posix_dirname mkdir_fresh.

(** A world with one RAW file in one directory. *)
Definition photos : world :=
  World {[ "/photos" := Dir; "/photos/shot.nef" := File ]} [].

(** The default keyword arguments of [process_raw_image]. *)
Definition defaults : FilterParameters :=
  {| sharpening_strength := 3 # 2; blur_sigma := 3; jpeg_quality := 95;
     noise_reduction := 0; saturation := 1; contrast := 1 |}.

(** Parameters that ask for no change. *)
Definition neutral : FilterParameters :=
  {| sharpening_strength := 0; blur_sigma := 3; jpeg_quality := 95;
     noise_reduction := 0; saturation := 1; contrast := 1 |}.

(** A one-channel image of two pixels. *)
Definition gray : ndarray byte := Ndarray (Shape2 1 2) [ [x10]; [xf0] ].

(** The same world, where the path chosen for the output is taken by a
    directory: the encoder cannot open it for writing. *)
Definition photos_blocked : world :=
  World {[ "/photos" := Dir; "/photos/shot.nef" := File;
           "/photos/out.jpg" := Dir ]} [].

End Demo.

From stdpp Require Import pretty.

Local Open Scope Q_scope.

(** ** The application window ([RawImageProcessorApp])

    The attributes of the object and the state of the widgets its methods
    touch.  Calls into tkinter are modelled by their effect on this state:
    a variable's [set] stores the value (and runs the write traces),
    [config(state=...)] stores the state, a [messagebox] call is recorded,
    [root.after] queues its callback. *)

Inductive tk_state : Type := NORMAL | DISABLED.

Inductive messagebox : Type :=
| showerror (title message : string)
| showinfo (title message : string).

(** The methods handed to [root.after]. *)
Inductive after_callback : Type := after_do_process_image.

Record labels : Type := Labels {
  sharpening_label : string;
  blur_label : string;
  quality_label : string;
  noise_label : string;
  saturation_label : string;
  contrast_label : string
}.

Record gui : Type := Gui {
  gui_input_path : string;                  (* self.input_path, a StringVar *)
  gui_output_path : string;                 (* self.output_path, a StringVar *)
  gui_vars : RawImageProcessorApp;          (* the six slider variables *)
  gui_status_text : string;                 (* self.status_text, a StringVar *)
  gui_processing : bool;                    (* self.processing *)
  gui_labels : labels;                      (* the text of the value labels *)
  gui_process_button : tk_state;            (* state of self.process_button *)
  gui_view_button : tk_state;               (* state of self.view_button *)
  gui_progress : option Z;                  (* self.progress: its interval
                                               while it animates *)
  gui_last_processed_image : option string; (* self.last_processed_image *)
  gui_messageboxes : list messagebox;       (* boxes shown, oldest first *)
  gui_after : list (Z * after_callback)     (* root.after queue, oldest first *)
}.

(** Assignment to one attribute. *)
Definition with_input_path (x : string) (self : gui) : gui :=
  Gui (x)
      (gui_output_path self)
      (gui_vars self)
      (gui_status_text self)
      (gui_processing self)
      (gui_labels self)
      (gui_process_button self)
      (gui_view_button self)
      (gui_progress self)
      (gui_last_processed_image self)
      (gui_messageboxes self)
      (gui_after self).

Definition with_output_path (x : string) (self : gui) : gui :=
  Gui (gui_input_path self)
      (x)
      (gui_vars self)
      (gui_status_text self)
      (gui_processing self)
      (gui_labels self)
      (gui_process_button self)
      (gui_view_button self)
      (gui_progress self)
      (gui_last_processed_image self)
      (gui_messageboxes self)
      (gui_after self).

Definition with_vars (x : RawImageProcessorApp) (self : gui) : gui :=
  Gui (gui_input_path self)
      (gui_output_path self)
      (x)
      (gui_status_text self)
      (gui_processing self)
      (gui_labels self)
      (gui_process_button self)
      (gui_view_button self)
      (gui_progress self)
      (gui_last_processed_image self)
      (gui_messageboxes self)
      (gui_after self).

Definition with_status_text (x : string) (self : gui) : gui :=
  Gui (gui_input_path self)
      (gui_output_path self)
      (gui_vars self)
      (x)
      (gui_processing self)
      (gui_labels self)
      (gui_process_button self)
      (gui_view_button self)
      (gui_progress self)
      (gui_last_processed_image self)
      (gui_messageboxes self)
      (gui_after self).

Definition with_processing (x : bool) (self : gui) : gui :=
  Gui (gui_input_path self)
      (gui_output_path self)
      (gui_vars self)
      (gui_status_text self)
      (x)
      (gui_labels self)
      (gui_process_button self)
      (gui_view_button self)
      (gui_progress self)
      (gui_last_processed_image self)
      (gui_messageboxes self)
      (gui_after self).

Definition with_labels (x : labels) (self : gui) : gui :=
  Gui (gui_input_path self)
      (gui_output_path self)
      (gui_vars self)
      (gui_status_text self)
      (gui_processing self)
      (x)
      (gui_process_button self)
      (gui_view_button self)
      (gui_progress self)
      (gui_last_processed_image self)
      (gui_messageboxes self)
      (gui_after self).

Definition with_process_button (x : tk_state) (self : gui) : gui :=
  Gui (gui_input_path self)
      (gui_output_path self)
      (gui_vars self)
      (gui_status_text self)
      (gui_processing self)
      (gui_labels self)
      (x)
      (gui_view_button self)
      (gui_progress self)
      (gui_last_processed_image self)
      (gui_messageboxes self)
      (gui_after self).

Definition with_view_button (x : tk_state) (self : gui) : gui :=
  Gui (gui_input_path self)
      (gui_output_path self)
      (gui_vars self)
      (gui_status_text self)
      (gui_processing self)
      (gui_labels self)
      (gui_process_button self)
      (x)
      (gui_progress self)
      (gui_last_processed_image self)
      (gui_messageboxes self)
      (gui_after self).

Definition with_progress (x : option Z) (self : gui) : gui :=
  Gui (gui_input_path self)
      (gui_output_path self)
      (gui_vars self)
      (gui_status_text self)
      (gui_processing self)
      (gui_labels self)
      (gui_process_button self)
      (gui_view_button self)
      (x)
      (gui_last_processed_image self)
      (gui_messageboxes self)
      (gui_after self).

Definition with_last_processed_image (x : option string) (self : gui) : gui :=
  Gui (gui_input_path self)
      (gui_output_path self)
      (gui_vars self)
      (gui_status_text self)
      (gui_processing self)
      (gui_labels self)
      (gui_process_button self)
      (gui_view_button self)
      (gui_progress self)
      (x)
      (gui_messageboxes self)
      (gui_after self).

Definition with_messageboxes (x : list messagebox) (self : gui) : gui :=
  Gui (gui_input_path self)
      (gui_output_path self)
      (gui_vars self)
      (gui_status_text self)
      (gui_processing self)
      (gui_labels self)
      (gui_process_button self)
      (gui_view_button self)
      (gui_progress self)
      (gui_last_processed_image self)
      (x)
      (gui_after self).

Definition with_after (x : list (Z * after_callback)) (self : gui) : gui :=
  Gui (gui_input_path self)
      (gui_output_path self)
      (gui_vars self)
      (gui_status_text self)
      (gui_processing self)
      (gui_labels self)
      (gui_process_button self)
      (gui_view_button self)
      (gui_progress self)
      (gui_last_processed_image self)
      (gui_messageboxes self)
      (x).

(** ** Formatting *)

(** [str(n)] for an [int]. *)
Definition str_int (n : Z) : string := pretty n.

(** [f"{x:.1f}"]: one digit after the point, the nearest such decimal, ties
    to the even digit; the sign is that of [x]. *)
Definition format_1f (x : Q) : string :=
  let n := Z.abs (py_round (x * 10)) in
  (if Qle_bool 0 x then "" else "-")
    +:+ pretty (n / 10)%Z +:+ "." +:+ pretty (n mod 10)%Z.

(** Truth value of a [str], and of a [str] or [None]. *)
Definition truthy (s : string) : bool := negb (String.eqb s "").

Definition truthy_result (r : option string) : bool :=
  match r with
  | Some s => truthy s
  | None => false
  end.

Definition StringVar_get (v : string) : string := v.

(** ** The methods of [RawImageProcessorApp] *)

(** Lines 221-226: the text every label is given. *)
Definition labels_of (vars : RawImageProcessorApp) : labels :=
  {| sharpening_label := format_1f (DoubleVar_get (self_sharpening_strength vars));
     blur_label := str_int (IntVar_get (self_blur_sigma vars));
     quality_label := str_int (IntVar_get (self_jpeg_quality vars));
     noise_label := format_1f (DoubleVar_get (self_noise_reduction vars));
     saturation_label := format_1f (DoubleVar_get (self_saturation vars));
     contrast_label := format_1f (DoubleVar_get (self_contrast vars)) |}.

(** [update_value_labels], lines 218-229.  The variables hold numbers, so
    no [get] raises and the handler is not entered. *)
Definition App_update_value_labels (self : gui) : gui :=
  with_labels (labels_of (gui_vars self)) self.

(** A write to a slider variable, by [set] or by the [ttk.Scale] bound to
    it.  Lines 213-216 register [update_value_labels] as write trace of
    [sharpening_strength], [noise_reduction], [saturation] and [contrast];
    [blur_sigma] and [jpeg_quality] have no trace. *)
Definition sharpening_strength_set (v : Q) (self : gui) : gui :=
  let vars := gui_vars self in
  App_update_value_labels
    (with_vars {| self_sharpening_strength := v;
                  self_blur_sigma := self_blur_sigma vars;
                  self_jpeg_quality := self_jpeg_quality vars;
                  self_noise_reduction := self_noise_reduction vars;
                  self_saturation := self_saturation vars;
                  self_contrast := self_contrast vars |} self).

Definition blur_sigma_set (v : Q) (self : gui) : gui :=
  let vars := gui_vars self in
  with_vars {| self_sharpening_strength := self_sharpening_strength vars;
               self_blur_sigma := v;
               self_jpeg_quality := self_jpeg_quality vars;
               self_noise_reduction := self_noise_reduction vars;
               self_saturation := self_saturation vars;
               self_contrast := self_contrast vars |} self.

Definition jpeg_quality_set (v : Q) (self : gui) : gui :=
  let vars := gui_vars self in
  with_vars {| self_sharpening_strength := self_sharpening_strength vars;
               self_blur_sigma := self_blur_sigma vars;
               self_jpeg_quality := v;
               self_noise_reduction := self_noise_reduction vars;
               self_saturation := self_saturation vars;
               self_contrast := self_contrast vars |} self.

Definition noise_reduction_set (v : Q) (self : gui) : gui :=
  let vars := gui_vars self in
  App_update_value_labels
    (with_vars {| self_sharpening_strength := self_sharpening_strength vars;
                  self_blur_sigma := self_blur_sigma vars;
                  self_jpeg_quality := self_jpeg_quality vars;
                  self_noise_reduction := v;
                  self_saturation := self_saturation vars;
                  self_contrast := self_contrast vars |} self).

Definition saturation_set (v : Q) (self : gui) : gui :=
  let vars := gui_vars self in
  App_update_value_labels
    (with_vars {| self_sharpening_strength := self_sharpening_strength vars;
                  self_blur_sigma := self_blur_sigma vars;
                  self_jpeg_quality := self_jpeg_quality vars;
                  self_noise_reduction := self_noise_reduction vars;
                  self_saturation := v;
                  self_contrast := self_contrast vars |} self).

Definition contrast_set (v : Q) (self : gui) : gui :=
  let vars := gui_vars self in
  App_update_value_labels
    (with_vars {| self_sharpening_strength := self_sharpening_strength vars;
                  self_blur_sigma := self_blur_sigma vars;
                  self_jpeg_quality := self_jpeg_quality vars;
                  self_noise_reduction := self_noise_reduction vars;
                  self_saturation := self_saturation vars;
                  self_contrast := v |} self).

(** Every label shows the current value of its variable. *)
Definition labels_fresh (self : gui) : Prop :=
  gui_labels self = labels_of (gui_vars self).

(** The state [__init__] leaves (lines 115-125, 152-183, 197, 210). *)
Definition App_init : gui :=
  {| gui_input_path := "";
     gui_output_path := "";
     gui_vars := reset_parameters;
     gui_status_text := "Ready";
     gui_processing := false;
     gui_labels := {| sharpening_label := format_1f 50;
                      blur_label := str_int 3;
                      quality_label := str_int 95;
                      noise_label := format_1f 30;
                      saturation_label := format_1f 55;
                      contrast_label := format_1f 55 |};
     gui_process_button := NORMAL;
     gui_view_button := DISABLED;
     gui_progress := None;
     gui_last_processed_image := None;
     gui_messageboxes := [];
     gui_after := [] |}.

(** [reset_parameters], lines 251-258. *)
Definition App_reset_parameters (self : gui) : gui :=
  let self := sharpening_strength_set 50 self in
  let self := blur_sigma_set 3 self in
  let self := jpeg_quality_set 95 self in
  let self := noise_reduction_set 30 self in
  let self := saturation_set 55 self in
  contrast_set 55 self.

(** [browse_output_file], lines 244-250, for the file name the dialog
    returned (empty when it was cancelled). *)
Definition App_browse_output_file (filename : string) (self : gui) : gui :=
  if truthy filename then with_output_path filename self else self.

(** [messagebox.showerror] and [messagebox.showinfo]. *)
Definition show (box : messagebox) (self : gui) : gui :=
  with_messageboxes (gui_messageboxes self ++ [box]) self.

(** [self.root.after(ms, callback)] *)
Definition root_after (ms : Z) (callback : after_callback) (self : gui) : gui :=
  with_after (gui_after self ++ [(ms, callback)]) self.

(** [process_image], lines 260-277. *)
Definition App_process_image (self : gui) : gui :=
  if negb (truthy (StringVar_get (gui_input_path self))) then
    show (showerror "Error" "Please select an input RAW file.") self
  else if negb (truthy (StringVar_get (gui_output_path self))) then
    show (showerror "Error" "Please specify an output file path.") self
  else
    let self := with_process_button DISABLED self in
    let self := with_progress (Some 10%Z) self in
    let self := with_status_text "Processing image..." self in
    let self := with_processing true self in
    root_after 100 after_do_process_image self.

Section Window.
Context `{Externals}.

(** Lines 305-313: "Update UI based on result". *)
Definition update_ui (result : option string) (self : gui) : gui :=
  if truthy_result result then
    let path := default "" result in
    let self :=
      with_status_text ("Image processed successfully: " +:+ path) self in
    let self := with_last_processed_image result self in
    let self := with_view_button NORMAL self in
    show (showinfo "Success"
            ("Image processed successfully and saved to:"
               +:+ String "010"%char path)) self
  else
    let self := with_status_text "Image processing failed." self in
    show (showerror "Error"
            "Failed to process the image. Check console for details.") self.

(** Lines 315-317: the handler. *)
Definition do_process_image_except (e : exn) (self : gui) : gui :=
  let self := with_status_text ("Error: " +:+ str e) self in
  show (showerror "Error" ("An error occurred: " +:+ str e)) self.

(** Lines 319-323: the [finally] block. *)
Definition do_process_image_finally (self : gui) : gui :=
  let self := with_process_button NORMAL self in
  let self := with_progress None self in
  with_processing false self.

(** [do_process_image], lines 279-323. *)
Definition App_do_process_image (self : gui) (w : world) : gui * world :=
  let input_path := StringVar_get (gui_input_path self) in
  let output_path := StringVar_get (gui_output_path self) in
  let p := scale_parameters (gui_vars self) in
  match process_raw_image input_path output_path p w with
  | (Ok result, w') => (do_process_image_finally (update_ui result self), w')
  | (Raise e, w') =>
      (do_process_image_finally (do_process_image_except e self), w')
  end.

(** The event loop runs the oldest callback queued with [root.after]. *)
Definition run_after (self : gui) (w : world) : gui * world :=
  match gui_after self with
  | [] => (self, w)
  | (_, after_do_process_image) :: rest =>
      App_do_process_image (with_after rest self) w
  end.

End Window.

(** ** [pathlib.PurePosixPath]

    The part of [pathlib] that [browse_input_file] uses, for the POSIX
    flavour (CPython 3.8 to 3.13): a path is its root (empty, one slash or
    two) and its components; strings are lists of characters. *)
Module PurePosixPath.

Definition sep : ascii := "/"%char.
Definition dot : ascii := "."%char.

(** [s.split("/")] *)
Fixpoint split (s : list ascii) : list (list ascii) :=
  match s with
  | [] => [[]]
  | a :: s' =>
      if decide (a = sep) then [] :: split s'
      else match split s' with
           | seg :: rest => (a :: seg) :: rest
           | [] => [[a]]
           end
  end.

(** ["/".join(parts)] *)
Fixpoint join (parts : list (list ascii)) : list ascii :=
  match parts with
  | [] => []
  | p :: rest =>
      match rest with
      | [] => p
      | _ :: _ => p ++ sep :: join rest
      end
  end.

(** [s.lstrip("/")] *)
Fixpoint lstrip (s : list ascii) : list ascii :=
  match s with
  | a :: s' => if decide (a = sep) then lstrip s' else s
  | [] => []
  end.

(** [splitroot]: exactly two leading slashes are kept as a root of their
    own, any other number of them is one slash. *)
Definition splitroot (part : list ascii) : list ascii * list ascii :=
  match part with
  | a :: _ =>
      if decide (a = sep) then
        let stripped := lstrip part in
        if decide (length part - length stripped = 2)%nat
        then ([sep; sep], stripped) else ([sep], stripped)
      else ([], part)
  | [] => ([], [])
  end.

(** A parsed path; [parts] does not include the root. *)
Record t : Type := mk { root : list ascii; parts : list (list ascii) }.

(** [PurePosixPath(s)]: empty components and "." are dropped. *)
Definition Path (s : list ascii) : t :=
  let '(r, rel) := splitroot s in
  mk r (filter (fun x => x <> [] /\ x <> [dot]) (split rel)).

(** [str(p)] *)
Definition str (p : t) : list ascii :=
  match root p, parts p with
  | [], [] => [dot]
  | r, ps => r ++ join ps
  end.

(** [p.parent] *)
Definition parent (p : t) : t := mk (root p) (removelast (parts p)).

(** [p.name] *)
Definition name (p : t) : list ascii := default [] (last (parts p)).

(** [s.rfind(c)], [None] for -1. *)
Fixpoint rfind (c : ascii) (s : list ascii) : option nat :=
  match s with
  | [] => None
  | a :: s' =>
      match rfind c s' with
      | Some i => Some (S i)
      | None => if decide (a = c) then Some 0%nat else None
      end
  end.

(** [p.stem]: the name without its last suffix; a leading or a trailing
    dot does not start a suffix. *)
Definition stem (p : t) : list ascii :=
  let n := name p in
  match rfind dot n with
  | Some i =>
      if (0 <? i)%nat && (i <? length n - 1)%nat then take i n else n
  | None => n
  end.

(** [p / key] *)
Definition truediv (p : t) (key : list ascii) : t :=
  let k := Path key in
  match root k with
  | [] => mk (root p) (parts p ++ parts k)
  | _ :: _ => k
  end.

End PurePosixPath.

(** Lines 240-241: [str(input_path.parent / f"{input_path.stem}_processed.jpg")]
    for [input_path = Path(filename)]. *)
Definition default_output (filename : string) : string :=
  let input_path := PurePosixPath.Path (list_ascii_of_string filename) in
  string_of_list_ascii
    (PurePosixPath.str
       (PurePosixPath.truediv (PurePosixPath.parent input_path)
          (PurePosixPath.stem input_path
             ++ list_ascii_of_string "_processed.jpg"))).

(** [browse_input_file], lines 231-242, for the file name the dialog
    returned (empty when it was cancelled). *)
Definition App_browse_input_file (filename : string) (self : gui) : gui :=
  if truthy filename then
    let self := with_input_path filename self in
    with_output_path (default_output filename) self
  else self.

(** ** Viewing the result

    The calls [view_result] makes outside the repository: [cv2.imread],
    which returns [None] for a file it cannot read, and the matplotlib
    calls. *)
Class Viewer : Type := {
  cv2_imread : string -> M (option (ndarray byte));
  plt_figure : Z * Z -> M unit;
  plt_imshow : ndarray byte -> M unit;
  plt_axis : string -> M unit;
  plt_title : string -> M unit;
  plt_show : M unit
}.

Section ViewResult.
Context `{Externals} `{Viewer}.

(** [cv2.cvtColor] applied to what [cv2.imread] returned: [None] is an
    empty source. *)
Definition cvtColor_read (src : option (ndarray byte)) (code : color_code)
    : result (ndarray byte) :=
  match src with
  | Some a => cvtColor a code
  | None => Raise (cv2_error "!_src.empty()")
  end.

(** Lines 332-338: the body of the [try].  [cv2.COLOR_BGR2RGB] and
    [cv2.COLOR_RGB2BGR] are the same conversion code. *)
Definition view_result_try (path : string) : M unit :=
  result_img ← cv2_imread path;
  result_img_rgb ← lift (cvtColor_read result_img COLOR_RGB2BGR);
  plt_figure (10, 8)%Z ;;
  plt_imshow result_img_rgb ;;
  plt_axis "off" ;;
  plt_title "Processed Image" ;;
  plt_show.

(** [view_result], lines 325-340. *)
Definition App_view_result (self : gui) (w : world) : gui * world :=
  let missing :=
    match gui_last_processed_image self with
    | Some path =>
        negb (truthy path) || negb (bool_decide (is_Some (fs w !! path)))
    | None => true
    end in
  if missing then
    (show (showerror "Error" "No processed image available to view.") self, w)
  else
    match view_result_try (default "" (gui_last_processed_image self)) w with
    | (Ok _, w') => (self, w')
    | (Raise e, w') =>
        (show (showerror "Error" ("Failed to display image: " +:+ str e)) self,
         w')
    end.

End ViewResult.

(** A stand-in viewer: [cv2.imread] reads regular files only, and the
    plotting calls do nothing. *)
Module DemoViewer.

Definition imread_file (path : string) : M (option (ndarray byte)) :=
  fun w =>
    match fs w !! path with
    | Some File => (Ok (Some Demo.decoded), w)
    | _ => (Ok None, w)
    end.

Definition plot_nothing {A : Type} (_ : A) : M unit := mret tt.

Definition viewer : Viewer :=
  Build_Viewer imread_file plot_nothing plot_nothing plot_nothing
               plot_nothing (mret tt).


End DemoViewer.
(** * Theorems *)

(** ** Truncation *)

Lemma truncate_nonneg (q : Q) :
  0 <= q -> inject_Z (truncate q) <= q /\ q < inject_Z (truncate q + 1).
Proof.
  destruct q as [n d]. unfold truncate, Qle, Qlt, inject_Z. simpl.
  intros Hq.
  assert (Hn : (0 <= n)%Z) by lia.
  pose proof (Z.quot_rem' n (Z.pos d)) as E.
  pose proof (Z.rem_bound_pos n (Z.pos d) Hn ltac:(lia)) as B.
  split; nia.
Qed.

Lemma truncate_nonpos (q : Q) :
  q <= 0 -> inject_Z (truncate q - 1) < q /\ q <= inject_Z (truncate q).
Proof.
  destruct q as [n d]. unfold truncate, Qle, Qlt, inject_Z. simpl.
  intros Hq.
  assert (Hn : (n <= 0)%Z) by lia.
  pose proof (Z.quot_rem' n (Z.pos d)) as E.
  pose proof (Z.rem_nonpos n (Z.pos d) ltac:(lia) Hn) as B.
  pose proof (Z.rem_bound_abs n (Z.pos d) ltac:(lia)) as B'.
  split; nia.
Qed.


Lemma truncate_bounds (lo hi : Z) (q : Q) :
  (0 <= lo)%Z -> inject_Z lo <= q <= inject_Z hi ->
  (lo <= truncate q <= hi)%Z.
Proof.
  intros Hlo [H1 H2].
  assert (H0 : 0 <= q).
  { eapply Qle_trans; [| exact H1]. unfold Qle, inject_Z. simpl. lia. }
  destruct (truncate_nonneg q H0) as [Ha Hb].
  pose proof (Qle_lt_trans _ _ _ H1 Hb) as L1.
  pose proof (Qle_trans _ _ _ Ha H2) as L2.
  rewrite <- Zlt_Qlt in L1. rewrite <- Zle_Qle in L2. lia.
Qed.

Lemma truncate_floor_ceiling (q : Q) :
  truncate q = if Qle_bool 0 q then Qfloor q else Qceiling q.
Proof.
  destruct q as [n d]. unfold truncate, Qle_bool, Qceiling, Qfloor, Qopp.
  cbn [Qnum Qden]. rewrite Z.mul_1_r, Z.mul_0_l.
  destruct (Z.leb_spec 0 n) as [Hn | Hn].
  - apply Z.quot_div_nonneg; lia.
  - rewrite <- (Z.opp_involutive n) at 1.
    rewrite Z.quot_opp_l by lia. f_equal.
    apply Z.quot_div_nonneg; lia.
Qed.


Lemma truncate_spec (q : Q) :
  inject_Z (Z.abs (truncate q)) <= Qabs q
  /\ Qabs q < inject_Z (Z.abs (truncate q)) + 1
  /\ 0 <= q * inject_Z (truncate q).
Proof.
  destruct (Qlt_le_dec q 0) as [Hneg | Hpos].
  - destruct (truncate_nonpos q (Qlt_le_weak _ _ Hneg)) as [H1 H2].
    assert (Ht : (truncate q <= 0)%Z).
    { rewrite truncate_floor_ceiling.
      destruct (Qle_bool 0 q) eqn:B.
      - apply Qle_bool_iff in B. lra.
      - unfold Qceiling. 
        assert (0 <= Qfloor (- q))%Z; [| lia].
        change 0%Z with (Qfloor 0). apply Qfloor_resp_le. lra. }
    rewrite Z.abs_neq by lia. rewrite (Qabs_neg q) by lra.
    rewrite inject_Z_opp.
    assert (E1 : inject_Z (truncate q - 1) == inject_Z (truncate q) - 1)
      by (unfold Z.sub; rewrite inject_Z_plus; reflexivity).
    rewrite E1 in H1.
    rewrite Zle_Qle in Ht. change (inject_Z 0) with 0 in Ht.
    repeat split; try lra.
    assert (P : 0 <= (- q) * (- inject_Z (truncate q)))
      by (apply Qmult_le_0_compat; lra).
    eapply Qle_trans; [exact P |]. apply Qle_lteq. right. ring.
  - destruct (truncate_nonneg q Hpos) as [H1 H2].
    assert (Ht : (0 <= truncate q)%Z).
    { rewrite truncate_floor_ceiling.
      apply Qle_bool_iff in Hpos. rewrite Hpos.
      change 0%Z with (Qfloor 0). apply Qfloor_resp_le.
      now apply Qle_bool_iff. }
    rewrite Z.abs_eq by lia. rewrite (Qabs_pos q) by lra.
    assert (E1 : inject_Z (truncate q + 1) == inject_Z (truncate q) + 1)
      by (rewrite inject_Z_plus; reflexivity).
    rewrite E1 in H2.
    rewrite Zle_Qle in Ht. change (inject_Z 0) with 0 in Ht.
    repeat split; try lra.
    apply Qmult_le_0_compat; lra.
Qed.

Lemma py_round_Qeq (q q' : Q) : q == q' -> py_round q = py_round q'.
Proof.
  intros E. unfold py_round. rewrite (Qfloor_comp _ _ E).
  assert (E' : q - inject_Z (Qfloor q') == q' - inject_Z (Qfloor q'))
    by (rewrite E; reflexivity).
  rewrite (Qcompare_comp _ _ E' _ _ (Qeq_refl (1 # 2))). reflexivity.
Qed.

Lemma py_round_inject_Z (z : Z) : py_round (inject_Z z) = z.
Proof.
  unfold py_round. rewrite Qfloor_Z.
  assert (L : inject_Z z - inject_Z z < 1 # 2) by lra.
  rewrite Qlt_alt in L. now rewrite L.
Qed.

(** ** Samples *)

Lemma u8_range (b : byte) : (0 <= u8 b < 256)%Z.
Proof. unfold u8. pose proof (Byte.to_N_bounded b). lia. Qed.

Lemma byte_of_Z_u8 (b : byte) : byte_of_Z (u8 b) = b.
Proof.
  unfold byte_of_Z, u8. rewrite N2Z.id, Byte.of_to_N. reflexivity.
Qed.

Lemma u8_byte_of_Z (z : Z) : (0 <= z < 256)%Z -> u8 (byte_of_Z z) = z.
Proof.
  intros Hz. unfold byte_of_Z, u8.
  destruct (Byte.of_N (Z.to_N z)) as [b |] eqn:E.
  - apply Byte.to_of_N in E. simpl. rewrite E. lia.
  - apply Byte.of_N_None_iff in E. lia.
Qed.

Lemma u8_inj (a b : byte) : u8 a = u8 b -> a = b.
Proof.
  intros E. rewrite <- (byte_of_Z_u8 a), <- (byte_of_Z_u8 b). now rewrite E.
Qed.

Lemma saturate_cast_uchar_Qeq (x y : Q) :
  x == y -> saturate_cast_uchar x = saturate_cast_uchar y.
Proof.
  intros E. unfold saturate_cast_uchar, cvRound. now rewrite (py_round_Qeq _ _ E).
Qed.

Lemma saturate_cast_uchar_sample (b : byte) :
  saturate_cast_uchar (astype_float32 b) = b.
Proof.
  unfold saturate_cast_uchar, cvRound, astype_float32.
  rewrite py_round_inject_Z. pose proof (u8_range b).
  rewrite Z.min_r, Z.max_r by lia. apply byte_of_Z_u8.
Qed.

Lemma u8_saturate_cast_uchar (x : Q) :
  u8 (saturate_cast_uchar x) = Z.max 0 (Z.min 255 (cvRound x)).
Proof. unfold saturate_cast_uchar. apply u8_byte_of_Z. lia. Qed.



(** ** The parameter scaling *)

(** C1, as the code has it.  The four real-valued parameters are the linear
    scalings the claim gives; [blur_sigma] and [jpeg_quality] are the
    integer parts of the slider values (truncation toward zero): the integer
    of the same sign whose magnitude is the largest not exceeding the
    slider's. *)
Theorem scale_parameters_truncates (self : RawImageProcessorApp) :
  sharpening_strength (scale_parameters self)
    = self_sharpening_strength self / 100 * 3
  /\ noise_reduction (scale_parameters self) = self_noise_reduction self / 100
  /\ saturation (scale_parameters self) = self_saturation self / 50
  /\ contrast (scale_parameters self) = self_contrast self / 50
  /\ blur_sigma (scale_parameters self) = truncate (self_blur_sigma self)
  /\ jpeg_quality (scale_parameters self) = truncate (self_jpeg_quality self)
  /\ (inject_Z (Z.abs (blur_sigma (scale_parameters self)))
        <= Qabs (self_blur_sigma self)
      /\ Qabs (self_blur_sigma self)
           < inject_Z (Z.abs (blur_sigma (scale_parameters self))) + 1
      /\ 0 <= self_blur_sigma self
              * inject_Z (blur_sigma (scale_parameters self)))
  /\ (inject_Z (Z.abs (jpeg_quality (scale_parameters self)))
        <= Qabs (self_jpeg_quality self)
      /\ Qabs (self_jpeg_quality self)
           < inject_Z (Z.abs (jpeg_quality (scale_parameters self))) + 1
      /\ 0 <= self_jpeg_quality self
              * inject_Z (jpeg_quality (scale_parameters self))).
Proof.
  unfold scale_parameters, py_int, IntVar_get, DoubleVar_get.
  cbn [sharpening_strength noise_reduction saturation contrast
       blur_sigma jpeg_quality].
  repeat split; try reflexivity; apply truncate_spec.
Qed.

(** C1 as stated fails: with the blur slider at 3.75 and the quality slider
    at 95.75 the code passes 3 and 95, whereas rounding gives 4 and 96. *)
Lemma scale_parameters_does_not_round :
  blur_sigma (scale_parameters sliders_between_marks) = 3%Z
  /\ py_round (self_blur_sigma sliders_between_marks) = 4%Z
  /\ jpeg_quality (scale_parameters sliders_between_marks) = 95%Z
  /\ py_round (self_jpeg_quality sliders_between_marks) = 96%Z
  /\ blur_sigma (scale_parameters sliders_between_marks)
       <> py_round (self_blur_sigma sliders_between_marks)
  /\ jpeg_quality (scale_parameters sliders_between_marks)
       <> py_round (self_jpeg_quality sliders_between_marks).
Proof. repeat split; try reflexivity; vm_compute; discriminate. Qed.

(** C7, as the code has it: when every slider is within the range its
    [ttk.Scale] is created with, the scaled parameters are within the
    documented native ranges. *)
Theorem scale_parameters_in_native_ranges (self : RawImageProcessorApp) :
  sliders_in_scale_range self -> in_native_ranges (scale_parameters self).
Proof.
  intros (Hs & Hb & Hq & Hn & Hsat & Hc).
  unfold in_native_ranges, scale_parameters, py_int, IntVar_get, DoubleVar_get.
  cbn [sharpening_strength noise_reduction saturation contrast
       blur_sigma jpeg_quality].
  assert (E100 : / 100 == 1 # 100) by reflexivity.
  assert (E50 : / 50 == 1 # 50) by reflexivity.
  unfold Qdiv. rewrite E100, E50.
  repeat apply conj; try lra.
  - apply (truncate_bounds 1 100); [lia | exact Hb].
  - apply (truncate_bounds 1 100); [lia | exact Hb].
  - apply (truncate_bounds 50 100); [lia | exact Hq].
  - apply (truncate_bounds 50 100); [lia | exact Hq].
Qed.

Lemma scale_parameters_in_native_ranges_witness :
  sliders_in_scale_range reset_parameters
  /\ in_native_ranges (scale_parameters reset_parameters).
Proof.
  assert (H : sliders_in_scale_range reset_parameters).
  { unfold sliders_in_scale_range, reset_parameters; simpl.
    repeat split; unfold Qle; simpl; lia. }
  split; [exact H | exact (scale_parameters_in_native_ranges _ H)].
Defined.

(** C7 as stated fails: with every slider at 0, which lies in [0, 100],
    [blur_sigma] is 0 and [jpeg_quality] is 0, outside [1, 100] and
    [50, 100]. *)
Lemma scale_parameters_out_of_native_ranges :
  sliders_in_0_100 sliders_all_zero
  /\ blur_sigma (scale_parameters sliders_all_zero) = 0%Z
  /\ jpeg_quality (scale_parameters sliders_all_zero) = 0%Z
  /\ ~ in_native_ranges (scale_parameters sliders_all_zero).
Proof.
  split; [| split; [reflexivity | split; [reflexivity |]]].
  - unfold sliders_in_0_100, sliders_all_zero; simpl.
    repeat split; unfold Qle; simpl; lia.
  - intros (_ & Hb & _). vm_compute in Hb. destruct Hb as [Hb _].
    now apply Hb.
Qed.

(** ** Gaussian blur and unsharp masking *)

Lemma lor_1_odd (n : Z) : Z.odd n = true -> Z.lor n 1 = n.
Proof.
  intros Hn. apply Z.bits_inj'. intros i Hi. rewrite Z.lor_spec.
  destruct (Z.eq_dec i 0%Z) as [-> | Hne].
  - rewrite Z.bit0_odd, Hn. reflexivity.
  - replace (Z.testbit 1 i) with false; [apply orb_false_r |].
    symmetry. apply (Z.bits_above_log2 1 i); simpl; lia.
Qed.

(** The kernel size OpenCV derives from an integer sigma. *)
Lemma derived_ksize (sigma : Z) :
  Z.lor (cvRound (inject_Z sigma * 3 * 2 + 1)) 1 = (6 * sigma + 1)%Z.
Proof.
  assert (E : inject_Z sigma * 3 * 2 + 1 == inject_Z (6 * sigma + 1)).
  { rewrite inject_Z_plus, inject_Z_mult. change (inject_Z 6) with 6.
    change (inject_Z 1) with 1. ring. }
  unfold cvRound. rewrite (py_round_Qeq _ _ E), py_round_inject_Z.
  apply lor_1_odd. replace (6 * sigma + 1)%Z with (1 + 2 * (3 * sigma))%Z by lia.
  rewrite Z.odd_add_mul_2. reflexivity.
Qed.

Section Sharpen.
Context `{Externals}.

Lemma float_gt_inject_Z (z : Z) : float_gt (inject_Z z) 0 = (0 <? z)%Z.
Proof.
  unfold float_gt, Qle_bool, inject_Z. simpl. rewrite Z.mul_1_r.
  destruct (Z.leb_spec z 0), (Z.ltb_spec 0 z); simpl; auto; lia.
Qed.

Lemma GaussianBlur_auto (src : ndarray byte) (sigma : Z) :
  mat_empty src = false -> (0 < sigma)%Z ->
  GaussianBlur src (0, 0)%Z (inject_Z sigma) 0 = Ok (blurred_of src sigma).
Proof.
  intros Hne Hs. unfold GaussianBlur, blurred_of. rewrite Hne.
  cbn [fst snd]. change (Qle_bool 0 0) with true. cbv iota.
  rewrite float_gt_inject_Z.
  replace (0 <? sigma)%Z with true by (symmetry; apply Z.ltb_lt; lia).
  change ((0 <=? 0)%Z && true) with true. cbv iota.
  rewrite derived_ksize.
  replace (0 <? 6 * sigma + 1)%Z with true by (symmetry; apply Z.ltb_lt; lia).
  replace (Z.odd (6 * sigma + 1)) with true
    by (symmetry; replace (6 * sigma + 1)%Z with (1 + 2 * (3 * sigma))%Z by lia;
        rewrite Z.odd_add_mul_2; reflexivity).
  reflexivity.
Qed.

Lemma GaussianBlur_nonpositive (src : ndarray byte) (sigma : Z) :
  (sigma <= 0)%Z -> exists e, GaussianBlur src (0, 0)%Z (inject_Z sigma) 0 = Raise e.
Proof.
  intros Hs. unfold GaussianBlur. destruct (mat_empty src); [eauto |].
  cbn [fst snd]. rewrite float_gt_inject_Z.
  replace (0 <? sigma)%Z with false by (symmetry; apply Z.ltb_ge; lia).
  simpl. eauto.
Qed.

Lemma sample_blurred_of (src : ndarray byte) (sigma : Z) (i c : nat) :
  sample (blurred_of src sigma) i c
  = (fun _ => gaussian_kernel src (6 * sigma + 1, 6 * sigma + 1)%Z
                 (inject_Z sigma, inject_Z sigma) i c) <$> sample src i c.
Proof.
  unfold sample, blurred_of. cbn [arr_data]. rewrite list_lookup_imap.
  destruct (arr_data src !! i) as [px |]; [| reflexivity].
  simpl. rewrite list_lookup_imap. reflexivity.
Qed.

Lemma sample_addWeighted (src1 src2 dst : ndarray byte) (alpha beta gamma : Q)
    (i c : nat) :
  addWeighted src1 alpha src2 beta gamma = Ok dst ->
  arr_shape dst = arr_shape src1
  /\ sample dst i c
     = (a ← sample src1 i c; b ← sample src2 i c;
        Some (saturate_cast_uchar
                (astype_float32 a * alpha + astype_float32 b * beta + gamma))).
Proof.
  unfold addWeighted. destruct (decide _) as [Hs | Hs]; [| discriminate].
  intros [= <-]. split; [reflexivity |].
  unfold sample. cbn [arr_data]. rewrite lookup_zip_with.
  destruct (arr_data src1 !! i) as [px1 |]; [| reflexivity].
  destruct (arr_data src2 !! i) as [px2 |]; [| simpl].
  - simpl. rewrite lookup_zip_with.
    destruct (px1 !! c); [| reflexivity]. reflexivity.
  - destruct (px1 !! c); reflexivity.
Qed.

Lemma zip_with_imap_l {A B : Type} (f : A -> B -> A) (g : nat -> A -> B)
    (l : list A) :
  (forall i a, f a (g i a) = a) -> zip_with f l (imap g l) = l.
Proof.
  revert g. induction l as [| a l IH]; intros g Hf; [reflexivity |].
  simpl. rewrite Hf. f_equal. apply IH. intros i b. apply Hf.
Qed.

(** With a zero strength the sharpened image is the original, whatever the
    blurred copy is. *)
Lemma unsharp_mask_zero (image_bgr : ndarray byte) (strength : Q) (sigma : Z) :
  mat_empty image_bgr = false -> (0 < sigma)%Z -> strength == 0 ->
  unsharp_mask image_bgr strength sigma = Ok image_bgr.
Proof.
  intros Hne Hs Hz. unfold unsharp_mask. rewrite (GaussianBlur_auto _ _ Hne Hs).
  simpl. unfold addWeighted, blurred_of. cbn [arr_shape arr_data].
  destruct (decide _) as [_ | Hc]; [| now destruct Hc].
  destruct image_bgr as [sh data]. cbn [arr_shape arr_data]. do 2 f_equal.
  apply zip_with_imap_l. intros i px.
  apply zip_with_imap_l. intros c a.
  rewrite <- (saturate_cast_uchar_sample a) at 2.
  apply saturate_cast_uchar_Qeq. rewrite Hz. ring.
Qed.

End Sharpen.

Section SharpenClaims.
Context `{Externals}.

Lemma enhance_unfold (image_bgr : ndarray byte) (p : FilterParameters)
    (w : world) :
  enhance image_bgr p w
  = match unsharp_mask image_bgr (sharpening_strength p) (blur_sigma p) with
    | Ok sharpened => after_unsharp_mask sharpened p w
    | Raise e => (Raise e, w)
    end.
Proof.
  unfold enhance, after_unsharp_mask, lift, mbind, M_bind.
  destruct (unsharp_mask _ _ _); reflexivity.
Qed.

Lemma unsharp_mask_formula (image_bgr : ndarray byte) (strength : Q)
    (sigma : Z) :
  mat_empty image_bgr = false -> (0 < sigma)%Z ->
  exists sharpened,
    unsharp_mask image_bgr strength sigma = Ok sharpened
    /\ sharpened_by_formula image_bgr sharpened strength sigma.
Proof.
  intros Hne Hs. unfold unsharp_mask. rewrite (GaussianBlur_auto _ _ Hne Hs).
  cbn [mbind result_bind].
  destruct (addWeighted image_bgr (1 + strength) (blurred_of image_bgr sigma)
              (- strength) 0) as [sharpened | e] eqn:E.
  2: { unfold addWeighted in E. cbn [blurred_of arr_shape] in E.
       destruct (decide _) as [_ | Hc]; [discriminate | now destruct Hc]. }
  exists sharpened. split; [reflexivity |].
  split; [apply (sample_addWeighted _ _ _ _ _ _ 0%nat 0%nat E) |].
  split.
  - intros i c Hi. destruct (sample_addWeighted _ _ _ _ _ _ i c E) as [_ ->].
    rewrite Hi. reflexivity.
  - intros i c original Hi.
    destruct (sample_addWeighted _ _ _ _ _ _ i c E) as [_ Hd].
    rewrite sample_blurred_of, Hi in *. cbn in Hd.
    eexists _, _. split; [reflexivity |]. split; [exact Hd |].
    rewrite u8_saturate_cast_uchar. do 2 f_equal.
    unfold cvRound. apply py_round_Qeq. ring.
Qed.


End SharpenClaims.


(** Unsharp masking, run: with strength 1.5 the sample 100 next to a blurred
    150 becomes 100 * 2.5 - 150 * 1.5 = 25, and 100 next to a blurred 75
    becomes 137.5, stored as 138. *)
Example unsharp_mask_run :
  @unsharp_mask Demo.externals
     (Ndarray (Shape3 1 2 3) [ [x64; x64; x64]; [xc8; x32; x64] ]) (3 # 2) 3
  = Ok (Ndarray (Shape3 1 2 3) [ [x19; x8a; x64]; [xc8; x32; x64] ]).
Proof. vm_compute. reflexivity. Qed.

(** ** The neutral parameters *)

Section Identity.
Context `{Externals}.

Lemma float_gt_zero (x : Q) : x == 0 -> float_gt x 0 = false.
Proof.
  intros E. unfold float_gt.
  assert (L : Qle_bool x 0 = true) by (apply Qle_bool_iff; rewrite E; lra).
  now rewrite L.
Qed.

Lemma float_ne_false (x y : Q) : float_ne x y = false <-> x == y.
Proof.
  unfold float_ne. rewrite negb_false_iff. apply Qeq_bool_iff.
Qed.


Lemma denoise_off (sharpened : ndarray byte) (noise : Q) :
  noise == 0 -> denoise sharpened noise = Ok sharpened.
Proof. intros E. unfold denoise. now rewrite (float_gt_zero _ E). Qed.

Lemma color_enhance_off (sharpened : ndarray byte) (sat con : Q) :
  sat == 1 -> con == 1 -> color_enhance sharpened sat con = Ok sharpened.
Proof.
  intros Es Ec. unfold color_enhance.
  apply float_ne_false in Es, Ec. now rewrite Es, Ec.
Qed.

Lemma within_tolerance_refl (t : Z) (a : ndarray byte) :
  (0 <= t)%Z -> within_tolerance t a a.
Proof.
  intros Ht. split; [reflexivity |].
  induction (arr_data a) as [| px l IH]; constructor; [| exact IH].
  induction px as [| x px IHpx]; constructor; [| exact IHpx].
  rewrite Z.sub_diag. simpl. exact Ht.
Qed.

(** C2.  For a non-empty three-channel raster and a positive [blur_sigma],
    with a zero sharpening strength, a zero noise reduction and saturation
    and contrast equal to 1, the pipeline returns the input raster itself,
    hence within the tolerance of 1 per sample, and prints nothing. *)
Theorem enhance_identity (image_bgr : ndarray byte) (p : FilterParameters)
    (h w : nat) (world0 : world) :
  arr_shape image_bgr = Shape3 h w 3 -> (0 < h * w)%nat ->
  (0 < blur_sigma p)%Z ->
  sharpening_strength p == 0 -> noise_reduction p == 0 ->
  saturation p == 1 -> contrast p == 1 ->
  exists out,
    enhance image_bgr p world0 = (Ok out, world0)
    /\ within_tolerance 1 out image_bgr
    /\ out = image_bgr.
Proof.
  intros Hsh Hhw Hsigma Hs Hn Hsat Hcon.
  assert (Hne : mat_empty image_bgr = false).
  { unfold mat_empty. rewrite Hsh. apply bool_decide_eq_false. lia. }
  exists image_bgr. split; [| split; [apply within_tolerance_refl; lia | reflexivity]].
  rewrite enhance_unfold, (unsharp_mask_zero _ _ _ Hne Hsigma Hs).
  unfold after_unsharp_mask, lift, mbind, M_bind.
  rewrite (denoise_off _ _ Hn), (color_enhance_off _ _ _ Hsat Hcon).
  unfold ensure_color. rewrite Hsh. reflexivity.
Qed.

End Identity.

Lemma enhance_identity_witness :
  arr_shape Demo.decoded = Shape3 2 2 3
  /\ (0 < 2 * 2)%nat
  /\ (0 < blur_sigma Demo.neutral)%Z
  /\ sharpening_strength Demo.neutral == 0
  /\ noise_reduction Demo.neutral == 0
  /\ saturation Demo.neutral == 1
  /\ contrast Demo.neutral == 1
  /\ exists out,
    @enhance Demo.externals Demo.decoded Demo.neutral Demo.photos
      = (Ok out, Demo.photos)
    /\ within_tolerance 1 out Demo.decoded
    /\ out = Demo.decoded.
Proof.
  assert (H1 : arr_shape Demo.decoded = Shape3 2 2 3) by reflexivity.
  assert (H2 : (0 < 2 * 2)%nat) by (simpl; lia).
  assert (H3 : (0 < blur_sigma Demo.neutral)%Z) by reflexivity.
  assert (H4 : sharpening_strength Demo.neutral == 0) by reflexivity.
  assert (H5 : noise_reduction Demo.neutral == 0) by reflexivity.
  assert (H6 : saturation Demo.neutral == 1) by reflexivity.
  assert (H7 : contrast Demo.neutral == 1) by reflexivity.
  repeat (split; [assumption |]).
  exact (@enhance_identity Demo.externals Demo.decoded Demo.neutral 2 2
           Demo.photos H1 H2 H3 H4 H5 H6 H7).
Defined.

(** ** The colour stage *)

Lemma sample_ndarray_map {A B : Type} (f : A -> B) (a : ndarray A) (i c : nat) :
  sample (ndarray_map f a) i c = f <$> sample a i c.
Proof.
  unfold sample, ndarray_map. cbn [arr_data]. rewrite list_lookup_fmap.
  destruct (arr_data a !! i) as [px |]; [| reflexivity].
  simpl. apply list_lookup_fmap.
Qed.

Lemma np_clip_bounds (x lo hi : Q) :
  lo <= hi -> lo <= np_clip x lo hi <= hi.
Proof.
  intros H. unfold np_clip. split.
  - apply Q.min_glb; [apply Q.le_max_r | exact H].
  - apply Q.le_min_r.
Qed.

Lemma np_clip_inside (x lo hi : Q) :
  lo <= x <= hi -> np_clip x lo hi == x.
Proof.
  intros [H1 H2]. unfold np_clip.
  rewrite (Q.max_l x lo H1). apply Q.min_l. exact H2.
Qed.

Lemma np_clip_below (x lo hi : Q) :
  lo <= hi -> x <= lo -> np_clip x lo hi == lo.
Proof.
  intros H H1. unfold np_clip.
  rewrite (Q.max_r x lo H1). apply Q.min_l. exact H.
Qed.

Lemma np_clip_above (x lo hi : Q) :
  lo <= hi -> hi <= x -> np_clip x lo hi == hi.
Proof.
  intros H H1. unfold np_clip. apply Q.min_r.
  eapply Qle_trans; [exact H1 | apply Q.le_max_l].
Qed.

Lemma astype_uint8_in_range (x : Q) :
  0 <= x <= 255 ->
  u8 (astype_uint8 x) = truncate x
  /\ inject_Z (u8 (astype_uint8 x)) <= x
  /\ x < inject_Z (u8 (astype_uint8 x)) + 1.
Proof.
  intros Hx.
  assert (Ht : (0 <= truncate x <= 255)%Z)
    by (apply (truncate_bounds 0 255); [lia | exact Hx]).
  assert (E : u8 (astype_uint8 x) = truncate x).
  { unfold astype_uint8. rewrite Z.mod_small by lia. apply u8_byte_of_Z. lia. }
  rewrite E. destruct (truncate_nonneg x (proj1 Hx)) as [H1 H2].
  rewrite inject_Z_plus in H2. change (inject_Z 1) with 1 in H2.
  auto.
Qed.


Lemma adjust_contrast_map (enhanced : ndarray byte) (con : Q) :
  adjust_contrast enhanced con = ndarray_map (contrast_sample con) enhanced.
Proof.
  unfold adjust_contrast, ndarray_map. cbn [arr_shape arr_data]. f_equal.
  rewrite <- !list_fmap_compose. apply list_fmap_ext. intros _ px _. simpl.
  rewrite <- !list_fmap_compose. reflexivity.
Qed.

Section ColorClaims.
Context `{Externals}.


End ColorClaims.


Section SaturationClaims.
Context `{Externals}.

Lemma cvtColor_BGR2HSV_inv (src hsv8 : ndarray byte) :
  cvtColor src COLOR_BGR2HSV = Ok hsv8 ->
  (3 <= channels (arr_shape src))%nat
  /\ hsv8 = Ndarray (shape_hw3 (arr_shape src))
                    (on_triple bgr2hsv <$> arr_data src).
Proof.
  unfold cvtColor. destruct (mat_empty src); [discriminate |].
  destruct (bool_decide _) eqn:E; [| discriminate].
  apply bool_decide_eq_true in E. intros [= <-]. split; [lia | reflexivity].
Qed.



End SaturationClaims.

Section SaturationStage.
Context `{Externals}.


End SaturationStage.


Lemma wf_decoded : wf_ndarray Demo.decoded.
Proof. split; [reflexivity | repeat constructor]. Qed.


(** ** Shapes through the pipeline *)

Section Shapes.
Context `{Externals}.

Lemma GaussianBlur_shape (src dst : ndarray byte) (ksize : Z * Z) (sx sy : Q) :
  GaussianBlur src ksize sx sy = Ok dst ->
  arr_shape dst = arr_shape src /\ mat_empty src = false.
Proof.
  unfold GaussianBlur. destruct (mat_empty src); [discriminate |].
  match goal with |- (if ?b then _ else _) = _ -> _ => destruct b end;
    [| discriminate].
  intros [= <-]. split; reflexivity.
Qed.

Lemma unsharp_mask_shape (image_bgr sharpened : ndarray byte) (s : Q) (sigma : Z) :
  unsharp_mask image_bgr s sigma = Ok sharpened ->
  arr_shape sharpened = arr_shape image_bgr /\ mat_empty image_bgr = false.
Proof.
  unfold unsharp_mask.
  destruct (GaussianBlur image_bgr (0, 0)%Z (inject_Z sigma) 0)
    as [blurred | e] eqn:E; [| discriminate].
  apply GaussianBlur_shape in E as [_ Hne]. cbn [mbind result_bind].
  intros Ha. split; [| exact Hne].
  apply (sample_addWeighted _ _ _ _ _ _ 0%nat 0%nat Ha).
Qed.

Lemma denoise_shape (sharpened denoised : ndarray byte) (noise : Q) :
  denoise sharpened noise = Ok denoised ->
  arr_shape denoised = arr_shape sharpened
  /\ (denoised = sharpened \/ (3 <= channels (arr_shape sharpened))%nat).
Proof.
  unfold denoise. destruct (float_gt noise 0).
  - unfold fastNlMeansDenoisingColored.
    destruct (bool_decide _) eqn:E; [| discriminate].
    apply bool_decide_eq_true in E. intros [= <-]. split; [reflexivity |].
    right. lia.
  - intros [= <-]. auto.
Qed.

Lemma cvtColor_shape (src dst : ndarray byte) (code : color_code) :
  cvtColor src code = Ok dst -> arr_shape dst = shape_hw3 (arr_shape src).
Proof.
  unfold cvtColor. destruct (mat_empty src); [discriminate |].
  destruct code; destruct (bool_decide _); try discriminate;
    intros [= <-]; reflexivity.
Qed.

Lemma shape_hw3_idem (s : shape) : shape_hw3 (shape_hw3 s) = shape_hw3 s.
Proof. destruct s; reflexivity. Qed.

Lemma color_enhance_shape (sharpened enhanced : ndarray byte) (sat con : Q) :
  color_enhance sharpened sat con = Ok enhanced ->
  enhanced = sharpened
  \/ (arr_shape enhanced = shape_hw3 (arr_shape sharpened)
      /\ (3 <= channels (arr_shape sharpened))%nat).
Proof.
  unfold color_enhance. destruct (float_ne sat 1 || float_ne con 1).
  2: { intros [= <-]. now left. }
  unfold hsv_round_trip.
  destruct (cvtColor sharpened COLOR_BGR2HSV) as [hsv8 | e] eqn:E1;
    [| discriminate].
  cbn [mbind result_bind].
  match goal with
  | |- context [cvtColor ?a COLOR_HSV2BGR] =>
      destruct (cvtColor a COLOR_HSV2BGR) as [bgr | e] eqn:E2;
        [| discriminate]
  end.
  cbn [mbind result_bind]. intros [= <-]. right.
  apply cvtColor_shape in E2.
  destruct (cvtColor_BGR2HSV_inv _ _ E1) as [Hc ->].
  split; [| exact Hc].
  assert (Hb : arr_shape bgr = shape_hw3 (arr_shape sharpened)).
  { rewrite E2. destruct (float_ne sat 1); cbn; apply shape_hw3_idem. }
  destruct (float_ne con 1); [rewrite adjust_contrast_map |]; exact Hb.
Qed.

Lemma ensure_color_inv (enhanced out : ndarray byte) (w w' : world) :
  ensure_color enhanced w = (Ok out, w') ->
  (is_grayscale (arr_shape enhanced) = false /\ out = enhanced /\ w' = w)
  \/ (is_grayscale (arr_shape enhanced) = true
      /\ out = Ndarray (shape_hw3 (arr_shape enhanced))
                       (gray_to_bgr <$> arr_data enhanced)
      /\ fs w' = fs w
      /\ stdout w' = stdout w
           ++ ["Warning: Image appears to be grayscale, converting to color"]).
Proof.
  unfold ensure_color. destruct (is_grayscale (arr_shape enhanced)) eqn:G.
  - unfold mbind, M_bind, print, lift, cvtColor.
    destruct (mat_empty enhanced); [discriminate |].
    destruct (bool_decide _); [| discriminate].
    intros [= <- <-]. right. auto.
  - intros [= <- <-]. left. auto.
Qed.

End Shapes.

Section ColorGuard.
Context `{Externals}.

Lemma channels_grayscale (s : shape) :
  is_grayscale s = true <-> channels s = 1%nat.
Proof.
  destruct s as [h w | h w c]; simpl; [tauto |].
  apply bool_decide_eq_true.
Qed.

Lemma channels_shape_hw3 (s : shape) : channels (shape_hw3 s) = 3%nat.
Proof. destruct s; reflexivity. Qed.

Lemma shape_hw3_three (s : shape) : channels s = 3%nat -> shape_hw3 s = s.
Proof. destruct s as [h w | h w c]; simpl; [discriminate | now intros ->]. Qed.

Lemma enhance_inv (image_bgr out : ndarray byte) (p : FilterParameters)
    (w w' : world) :
  enhance image_bgr p w = (Ok out, w') ->
  exists sharpened denoised enhanced,
    unsharp_mask image_bgr (sharpening_strength p) (blur_sigma p) = Ok sharpened
    /\ denoise sharpened (noise_reduction p) = Ok denoised
    /\ color_enhance denoised (saturation p) (contrast p) = Ok enhanced
    /\ ensure_color enhanced w = (Ok out, w').
Proof.
  unfold enhance, lift, mbind, M_bind.
  destruct (unsharp_mask _ _ _) as [sharpened | e]; [| discriminate].
  destruct (denoise _ _) as [denoised | e] eqn:E2; [| discriminate].
  destruct (color_enhance _ _ _) as [enhanced | e] eqn:E3; [| discriminate].
  intros E. now exists sharpened, denoised, enhanced.
Qed.

(** C6.  For an input with one channel (two-dimensional, or with a third
    dimension of 1) or three channels, a raster returned by the pipeline
    has the input's height and width and exactly three channels.  For a
    one-channel input the returned raster is the sharpened one with every
    sample replicated three times; and the pipeline does return one when
    the image is not empty, [blur_sigma] is positive and the denoising and
    colour stages are off (with them on, OpenCV rejects a one-channel
    image and nothing is returned). *)
Theorem enhance_three_channels (image_bgr : ndarray byte)
    (p : FilterParameters) (w : world) :
  channels (arr_shape image_bgr) = 1%nat
  \/ channels (arr_shape image_bgr) = 3%nat ->
  (forall out w',
     enhance image_bgr p w = (Ok out, w') ->
     arr_shape out = shape_hw3 (arr_shape image_bgr)
     /\ channels (arr_shape out) = 3%nat
     /\ (channels (arr_shape image_bgr) = 1%nat ->
         exists sharpened,
           unsharp_mask image_bgr (sharpening_strength p) (blur_sigma p)
             = Ok sharpened
           /\ arr_data out = gray_to_bgr <$> arr_data sharpened
           /\ forall i g, arr_data sharpened !! i = Some [g] ->
                          arr_data out !! i = Some [g; g; g]))
  /\ (channels (arr_shape image_bgr) = 1%nat ->
      mat_empty image_bgr = false -> (0 < blur_sigma p)%Z ->
      noise_reduction p == 0 -> saturation p == 1 -> contrast p == 1 ->
      exists out w',
        enhance image_bgr p w = (Ok out, w')
        /\ arr_shape out = shape_hw3 (arr_shape image_bgr)).
Proof.
  intros Hch. split.
  - intros out w' E.
    destruct (enhance_inv _ _ _ _ _ E)
      as (sharpened & denoised & enhanced & E1 & E2 & E3 & E4).
    destruct (unsharp_mask_shape _ _ _ _ E1) as [S1 _].
    destruct (denoise_shape _ _ _ E2) as [S2 D2].
    pose proof (color_enhance_shape _ _ _ _ E3) as S3.
    destruct (ensure_color_inv _ _ _ _ E4)
      as [(G & -> & _) | (G & -> & _ & _)].
    + (* the guard does not fire *)
      assert (Hne1 : channels (arr_shape enhanced) <> 1%nat).
      { intros C. apply channels_grayscale in C. congruence. }
      destruct S3 as [-> | [S3 C3]].
      * rewrite S2, S1 in *.
        destruct Hch as [Hch | Hch]; [contradiction |].
        rewrite (shape_hw3_three _ Hch).
        split; [reflexivity |]. split; [exact Hch |]. congruence.
      * rewrite S3, S2, S1 in *. rewrite channels_shape_hw3.
        split; [reflexivity |]. split; [reflexivity |].
        intros C1. rewrite C1 in C3. lia.
    + (* the guard fires *)
      apply channels_grayscale in G. cbn [arr_shape arr_data].
      destruct S3 as [-> | [S3 C3]].
      * rewrite S2, S1 in *.
        split; [reflexivity |]. split; [apply channels_shape_hw3 |].
        intros _. destruct D2 as [-> | D2]; [| rewrite G in D2; lia].
        exists sharpened. split; [exact E1 |]. split; [reflexivity |].
        intros i g Hi. rewrite list_lookup_fmap, Hi. reflexivity.
      * rewrite S3, channels_shape_hw3 in G. discriminate.
  - intros C1 Hne Hs Hn Hsat Hcon.
    destruct (unsharp_mask_formula image_bgr (sharpening_strength p)
                (blur_sigma p) Hne Hs) as (sharpened & E1 & S1 & _).
    rewrite enhance_unfold, E1.
    unfold after_unsharp_mask, lift, mbind, M_bind.
    rewrite (denoise_off _ _ Hn), (color_enhance_off _ _ _ Hsat Hcon).
    unfold ensure_color.
    replace (is_grayscale (arr_shape sharpened)) with true
      by (symmetry; apply channels_grayscale; congruence).
    unfold mbind, M_bind, print, lift, cvtColor.
    replace (mat_empty sharpened) with false
      by (unfold mat_empty in *; rewrite S1; now rewrite Hne).
    rewrite S1, C1. cbn [channels]. rewrite bool_decide_eq_true_2 by reflexivity.
    eexists _, _. split; [reflexivity | reflexivity].
Qed.

End ColorGuard.

Lemma enhance_three_channels_witness :
  (channels (arr_shape Demo.gray) = 1%nat
   \/ channels (arr_shape Demo.gray) = 3%nat)
  /\ mat_empty Demo.gray = false
  /\ exists out w',
       @enhance Demo.externals Demo.gray Demo.neutral Demo.photos = (Ok out, w')
       /\ arr_shape out = shape_hw3 (arr_shape Demo.gray).
Proof.
  assert (H0 : channels (arr_shape Demo.gray) = 1%nat
               \/ channels (arr_shape Demo.gray) = 3%nat) by (left; reflexivity).
  split; [exact H0 |]. split; [reflexivity |].
  apply (proj2 (@enhance_three_channels Demo.externals Demo.gray Demo.neutral
                  Demo.photos H0)); reflexivity.
Defined.

(** The pipeline on a one-channel image, run. *)
Example enhance_gray :
  @enhance Demo.externals Demo.gray Demo.neutral Demo.photos
  = (Ok (Ndarray (Shape3 1 2 3) [ [x10; x10; x10]; [xf0; xf0; xf0] ]),
     World (fs Demo.photos)
       ["Warning: Image appears to be grayscale, converting to color"]).
Proof. vm_compute. reflexivity. Qed.

(** With the colour stage on, OpenCV rejects the one-channel image. *)
Example enhance_gray_saturated :
  exists e,
    @enhance Demo.externals Demo.gray (scale_parameters reset_parameters)
       Demo.photos
    = (Raise e, Demo.photos).
Proof. eexists. vm_compute. reflexivity. Qed.

(** ** The orchestration *)

Section Orchestration.
Context `{Externals}.

Lemma os_path_exists_run (path : string) (w : world) :
  os_path_exists path w = (Ok (bool_decide (is_Some (fs w !! path))), w).
Proof. reflexivity. Qed.

(** The handler returns [None] after printing one line. *)
Lemma process_raw_image_except_run (e : exn) (w : world) :
  process_raw_image_except e w
  = (Ok None, World (fs w) (stdout w ++ ["Error processing image: " +:+ str e])).
Proof. reflexivity. Qed.

(** [develop] and [convert] return nothing but the output path. *)
Lemma develop_returns (rgb_image : ndarray byte) (output_path : string)
    (p : FilterParameters) (w w' : world) (r : option string) :
  develop rgb_image output_path p w = (Ok r, w') -> r = Some output_path.
Proof.
  unfold develop, lift, print, mbind, M_bind, mret, M_ret.
  destruct (cvtColor rgb_image COLOR_RGB2BGR) as [image_bgr | e];
    [| discriminate].
  destruct (enhance image_bgr p w) as [[enhanced | e] w1]; [| discriminate].
  destruct (cv2_imwrite _ _ _ w1) as [[b | e] w2]; [| discriminate].
  now intros [= <- _].
Qed.

Lemma convert_returns (input_path output_path : string)
    (p : FilterParameters) (w w' : world) (r : option string) :
  convert input_path output_path p w = (Ok r, w') -> r = Some output_path.
Proof.
  unfold convert, print, mbind, M_bind.
  destruct (rawpy_imread_postprocess input_path _) as [[rgb | e] w1];
    [| discriminate].
  apply develop_returns.
Qed.

(** No exception leaves [process_raw_image]; it returns the output path or
    [None], and [None] only after printing a line that starts with
    "Error". *)
Lemma process_raw_image_never_raises (input_path output_path : string)
    (p : FilterParameters) (w : world) :
  exists r w',
    process_raw_image input_path output_path p w = (Ok r, w')
    /\ (r = Some output_path
        \/ (r = None
            /\ exists msg, last (stdout w') = Some ("Error" +:+ msg))).
Proof.
  unfold process_raw_image, try_except.
  destruct (process_raw_image_try input_path output_path p w)
    as [[r | e] w1] eqn:E.
  - exists r, w1. split; [reflexivity |].
    unfold process_raw_image_try in E.
    unfold mbind, M_bind in E. rewrite os_path_exists_run in E.
    destruct (bool_decide (is_Some (fs w !! input_path))); cbn [negb] in E.
    + left. destruct (create_output_dir output_path w) as [[[] | e] w2];
        [| discriminate].
      eapply convert_returns. exact E.
    + right. unfold print, mret, M_ret in E. injection E as <- <-.
      split; [reflexivity |].
      exists (": Input file '" +:+ input_path +:+ "' does not exist.").
      cbn [stdout]. rewrite last_snoc. reflexivity.
  - rewrite process_raw_image_except_run. eexists _, _.
    split; [reflexivity |]. right. split; [reflexivity |].
    exists (" processing image: " +:+ str e). cbn [stdout].
    rewrite last_snoc. reflexivity.
Qed.

(** C8.  When the input path does not exist, [process_raw_image] returns
    [None], prints the "does not exist" line and leaves the file system as
    it was: no output file, and no directory, is created. *)
Theorem missing_input_returns_none (input_path output_path : string)
    (p : FilterParameters) (w : world) :
  fs w !! input_path = None ->
  exists w',
    process_raw_image input_path output_path p w = (Ok None, w')
    /\ fs w' = fs w
    /\ fs w' !! output_path = fs w !! output_path
    /\ stdout w'
       = stdout w
           ++ ["Error: Input file '" +:+ input_path +:+ "' does not exist."].
Proof.
  intros Hin. eexists. split.
  - unfold process_raw_image, try_except, process_raw_image_try.
    unfold mbind, M_bind. rewrite os_path_exists_run.
    rewrite bool_decide_eq_false_2
      by (rewrite Hin; intros [x Hx]; discriminate).
    reflexivity.
  - repeat split; reflexivity.
Qed.

End Orchestration.

Lemma missing_input_returns_none_witness :
  fs Demo.photos !! "/photos/none.nef" = None
  /\ exists w',
       @process_raw_image Demo.externals "/photos/none.nef"
          "/photos/out/none.jpg" Demo.defaults Demo.photos = (Ok None, w')
       /\ fs w' = fs Demo.photos
       /\ fs w' !! "/photos/out/none.jpg" = fs Demo.photos !! "/photos/out/none.jpg"
       /\ stdout w'
          = stdout Demo.photos
              ++ ["Error: Input file '" +:+ "/photos/none.nef"
                    +:+ "' does not exist."].
Proof.
  assert (H0 : fs Demo.photos !! "/photos/none.nef" = None)
    by (vm_compute; reflexivity).
  split; [exact H0 |].
  exact (@missing_input_returns_none Demo.externals "/photos/none.nef"
           "/photos/out/none.jpg" Demo.defaults Demo.photos H0).
Defined.

Section Encoding.
Context `{Externals}.

(** Every exception raised by a stage is caught and turned into [None]. *)
Lemma raise_is_caught (input_path output_path : string)
    (p : FilterParameters) (w w1 : world) (e : exn) :
  process_raw_image_try input_path output_path p w = (Raise e, w1) ->
  process_raw_image input_path output_path p w
  = (Ok None,
     World (fs w1) (stdout w1 ++ ["Error processing image: " +:+ str e])).
Proof.
  intros E. unfold process_raw_image, try_except. rewrite E. reflexivity.
Qed.

(** C9 fails on the code for an encoder failure that is reported through
    the return value of [cv2.imwrite]: when the input exists and decoding
    and enhancement succeed, a [False] from [cv2.imwrite] is discarded, the
    "Processed image saved to" line is printed and the output path is
    returned. *)
Theorem imwrite_failure_returns_path (input_path output_path : string)
    (p : FilterParameters) (w w1 w2 w3 w4 : world)
    (rgb_image image_bgr enhanced : ndarray byte) :
  is_Some (fs w !! input_path) ->
  create_output_dir output_path w = (Ok tt, w1) ->
  rawpy_imread_postprocess input_path
    (World (fs w1) (stdout w1 ++ ["Processing RAW image: " +:+ input_path]))
    = (Ok rgb_image, w2) ->
  cvtColor rgb_image COLOR_RGB2BGR = Ok image_bgr ->
  enhance image_bgr p w2 = (Ok enhanced, w3) ->
  cv2_imwrite output_path enhanced [IMWRITE_JPEG_QUALITY; jpeg_quality p] w3
    = (Ok false, w4) ->
  process_raw_image input_path output_path p w
  = (Ok (Some output_path),
     World (fs w4)
       (stdout w4 ++ ["Processed image saved to: " +:+ output_path])).
Proof.
  intros Hin Hdir Hdec Hbgr Henh Hwr.
  unfold process_raw_image, try_except, process_raw_image_try.
  unfold mbind, M_bind. rewrite os_path_exists_run.
  rewrite bool_decide_eq_true_2 by exact Hin. cbn [negb].
  rewrite Hdir. unfold convert, mbind, M_bind, print at 1.
  rewrite Hdec. unfold develop, lift, mbind, M_bind.
  rewrite Hbgr, Henh, Hwr. reflexivity.
Qed.

End Encoding.

Lemma imwrite_failure_returns_path_witness :
  fs Demo.photos_blocked !! "/photos/out.jpg" = Some Dir
  /\ exists w',
       @process_raw_image Demo.externals "/photos/shot.nef" "/photos/out.jpg"
          Demo.defaults Demo.photos_blocked
       = (Ok (Some "/photos/out.jpg"), w')
       /\ fs w' = fs Demo.photos_blocked
       /\ fs w' !! "/photos/out.jpg" <> Some File
       /\ stdout w' = ["Processing RAW image: /photos/shot.nef";
                       "Processed image saved to: /photos/out.jpg"].
Proof.
  split; [vm_compute; reflexivity |].
  eexists. split.
  - eapply (@imwrite_failure_returns_path Demo.externals "/photos/shot.nef"
              "/photos/out.jpg" Demo.defaults Demo.photos_blocked).
    + vm_compute. eauto.
    + vm_compute. reflexivity.
    + vm_compute. reflexivity.
    + vm_compute. reflexivity.
    + vm_compute. reflexivity.
    + vm_compute. reflexivity.
  - split; [vm_compute; reflexivity |].
    split; [vm_compute; discriminate | vm_compute; reflexivity].
Defined.

(** ** Directories survive the call *)

Section OutputDirectory.
Context `{Externals}.

Lemma keeps_dirs_ret {A : Type} (a : A) : keeps_dirs (mret a : M A).
Proof. intros w w' r [= <- <-] d Hd. exact Hd. Qed.

Lemma keeps_dirs_lift {A : Type} (x : result A) : keeps_dirs (lift x).
Proof. intros w w' r [= <- <-] d Hd. exact Hd. Qed.

Lemma keeps_dirs_print (s : string) : keeps_dirs (print s).
Proof. intros w w' r [= <- <-] d Hd. exact Hd. Qed.

Lemma keeps_dirs_bind {A B : Type} (m : M A) (f : A -> M B) :
  keeps_dirs m -> (forall a, keeps_dirs (f a)) -> keeps_dirs (m ≫= f).
Proof.
  intros Hm Hf w w' r E d Hd. unfold mbind, M_bind in E.
  destruct (m w) as [[a | e] w1] eqn:Em.
  - eapply Hf; [exact E |]. eapply Hm; [exact Em | exact Hd].
  - injection E as <- <-. eapply Hm; [exact Em | exact Hd].
Qed.

Lemma keeps_dirs_try_except {A : Type} (body : M A) (handler : exn -> M A) :
  keeps_dirs body -> (forall e, keeps_dirs (handler e)) ->
  keeps_dirs (try_except body handler).
Proof.
  intros Hb Hh w w' r E d Hd. unfold try_except in E.
  destruct (body w) as [[a | e] w1] eqn:Eb.
  - injection E as <- <-. eapply Hb; [exact Eb | exact Hd].
  - eapply Hh; [exact E |]. eapply Hb; [exact Eb | exact Hd].
Qed.

Lemma keeps_dirs_enhance (image_bgr : ndarray byte) (p : FilterParameters) :
  keeps_dirs (enhance image_bgr p).
Proof.
  unfold enhance.
  repeat (apply keeps_dirs_bind; [apply keeps_dirs_lift | intros ?]).
  unfold ensure_color. destruct (is_grayscale _); [| apply keeps_dirs_ret].
  apply keeps_dirs_bind; [apply keeps_dirs_print | intros ?].
  apply keeps_dirs_lift.
Qed.

Lemma keeps_dirs_develop (rgb_image : ndarray byte) (output_path : string)
    (p : FilterParameters) :
  (forall path img ps, keeps_dirs (cv2_imwrite path img ps)) ->
  keeps_dirs (develop rgb_image output_path p).
Proof.
  intros Hw. unfold develop.
  apply keeps_dirs_bind; [apply keeps_dirs_lift | intros image_bgr].
  apply keeps_dirs_bind; [apply keeps_dirs_enhance | intros enhanced].
  apply keeps_dirs_bind; [apply Hw | intros _].
  apply keeps_dirs_bind; [apply keeps_dirs_print | intros _].
  apply keeps_dirs_ret.
Qed.

(** C10.  When the input exists and the directory part of the output path
    is non-empty and absent, a successful [os.makedirs] runs before the
    decoder: the rest of the call, decoding first, starts in the world
    [os.makedirs] left, where the directory exists.  Since neither the
    decoder nor the encoder removes directories, the directory exists when
    the call returns, whatever it returns, [None] included. *)
Theorem output_dir_outlives_failure (input_path output_path : string)
    (p : FilterParameters) (w w1 : world) :
  (forall path, keeps_dirs (rawpy_imread_postprocess path)) ->
  (forall path img ps, keeps_dirs (cv2_imwrite path img ps)) ->
  is_Some (fs w !! input_path) ->
  os_path_dirname output_path <> "" ->
  fs w !! os_path_dirname output_path = None ->
  os_makedirs (os_path_dirname output_path) w = (Ok tt, w1) ->
  fs w1 !! os_path_dirname output_path = Some Dir ->
  process_raw_image input_path output_path p w
  = try_except
      (rgb_image ← rawpy_imread_postprocess input_path;
       develop rgb_image output_path p)
      process_raw_image_except
      (World (fs w1) (stdout w1 ++ ["Processing RAW image: " +:+ input_path]))
  /\ forall r w',
       process_raw_image input_path output_path p w = (r, w') ->
       fs w' !! os_path_dirname output_path = Some Dir
       /\ (r = Ok None \/ r = Ok (Some output_path)).
Proof.
  intros Hdec Henc Hin Hne Habs Hmk Hdir.
  assert (E : process_raw_image input_path output_path p w
              = try_except
                  (rgb_image ← rawpy_imread_postprocess input_path;
                   develop rgb_image output_path p)
                  process_raw_image_except
                  (World (fs w1)
                     (stdout w1 ++ ["Processing RAW image: " +:+ input_path]))).
  { unfold process_raw_image, try_except, process_raw_image_try.
    unfold mbind at 1, M_bind at 1. rewrite os_path_exists_run.
    rewrite bool_decide_eq_true_2 by exact Hin. cbn [negb].
    unfold mbind at 1, M_bind at 1. unfold create_output_dir.
    rewrite bool_decide_eq_true_2 by exact Hne.
    unfold mbind at 1, M_bind at 1. rewrite os_path_exists_run.
    rewrite bool_decide_eq_false_2
      by (rewrite Habs; intros [x Hx]; discriminate).
    cbn [negb]. rewrite Hmk. unfold convert.
    unfold mbind at 1, M_bind at 1, print at 1. reflexivity. }
  split; [exact E |].
  intros r w' Er. split.
  - rewrite E in Er.
    refine (keeps_dirs_try_except _ _ _ _ _ _ _ Er _ Hdir).
    + apply keeps_dirs_bind; [apply Hdec | intros rgb].
      apply keeps_dirs_develop, Henc.
    + intros e. unfold process_raw_image_except.
      apply keeps_dirs_bind; [apply keeps_dirs_print | intros _].
      apply keeps_dirs_ret.
  - destruct (process_raw_image_never_raises input_path output_path p w)
      as (r0 & w0 & E0 & [-> | [-> _]]);
      rewrite E0 in Er; injection Er as <- <-; auto.
Qed.

End OutputDirectory.

Lemma decode_file_keeps_dirs (path : string) :
  keeps_dirs (@rawpy_imread_postprocess Demo.externals path).
Proof.
  intros w w' r E d Hd. cbn in E. unfold Demo.decode_file in E.
  destruct (fs w !! path) as [[] |]; injection E as <- <-; exact Hd.
Qed.

Lemma imwrite_file_keeps_dirs (path : string) (img : ndarray byte)
    (ps : list Z) :
  keeps_dirs (@cv2_imwrite Demo.externals path img ps).
Proof.
  intros w w' r E d Hd. cbn in E. unfold Demo.imwrite_file in E.
  destruct (bool_decide (arr_data img = [])); [injection E as <- <-; exact Hd |].
  destruct (fs w !! path) as [[] |] eqn:Ep; injection E as <- <-;
    try exact Hd; cbn [fs];
    (rewrite lookup_insert_ne; [exact Hd | intros ->; congruence]).
Qed.

Lemma output_dir_outlives_failure_witness :
  is_Some (fs Demo.photos !! "/photos")
  /\ @os_path_dirname Demo.externals "/photos/out/shot.jpg" <> ""
  /\ fs Demo.photos !! @os_path_dirname Demo.externals "/photos/out/shot.jpg"
     = None
  /\ forall r w',
       @process_raw_image Demo.externals "/photos" "/photos/out/shot.jpg"
          Demo.defaults Demo.photos = (r, w') ->
       fs w' !! @os_path_dirname Demo.externals "/photos/out/shot.jpg"
         = Some Dir
       /\ (r = Ok None \/ r = Ok (Some "/photos/out/shot.jpg")).
Proof.
  assert (H1 : is_Some (fs Demo.photos !! "/photos"))
    by (vm_compute; eauto).
  assert (H2 : @os_path_dirname Demo.externals "/photos/out/shot.jpg" <> "")
    by (vm_compute; discriminate).
  assert (H3 : fs Demo.photos
                 !! @os_path_dirname Demo.externals "/photos/out/shot.jpg"
               = None) by (vm_compute; reflexivity).
  split; [exact H1 |]. split; [exact H2 |]. split; [exact H3 |].
  refine (proj2 (@output_dir_outlives_failure Demo.externals "/photos"
                   "/photos/out/shot.jpg" Demo.defaults Demo.photos _
                   decode_file_keeps_dirs imwrite_file_keeps_dirs
                   H1 H2 H3 _ _)).
  - vm_compute. reflexivity.
  - vm_compute. reflexivity.
Defined.

(** The call of the witness, run: decoding fails, [None] is returned, and
    the directory made for the output is there. *)
Example failed_call_leaves_directory :
  exists w',
    @process_raw_image Demo.externals "/photos" "/photos/out/shot.jpg"
       Demo.defaults Demo.photos = (Ok None, w')
    /\ fs Demo.photos !! "/photos/out" = None
    /\ fs w' !! "/photos/out" = Some Dir
    /\ fs w' !! "/photos/out/shot.jpg" = None
    /\ stdout w' = ["Processing RAW image: /photos";
                    "Error processing image: Input/output error"].
Proof. eexists. vm_compute. repeat split; reflexivity. Qed.

(** * Further properties of the pipeline *)

(** ** Rounding against integers *)



Section SharpenSamples.
Context `{Externals}.

Lemma unsharp_mask_inv (image_bgr sharpened : ndarray byte) (s : Q) (sigma : Z) :
  unsharp_mask image_bgr s sigma = Ok sharpened ->
  mat_empty image_bgr = false /\ (0 < sigma)%Z.
Proof.
  intros E. split; [apply (unsharp_mask_shape _ _ _ _ E) |].
  destruct (Z.lt_ge_cases 0 sigma) as [Hs | Hs]; [exact Hs |].
  destruct (GaussianBlur_nonpositive image_bgr sigma Hs) as [e He].
  unfold unsharp_mask in E. rewrite He in E. discriminate.
Qed.


End SharpenSamples.

Section SharpenProperties.
Context `{Externals}.



End SharpenProperties.



(** ** The contrast adjustment, sample by sample *)

Lemma np_clip_monotone (x y lo hi : Q) :
  x <= y -> np_clip x lo hi <= np_clip y lo hi.
Proof.
  intros H. unfold np_clip.
  apply Q.min_le_compat_r, Q.max_le_compat_r, H.
Qed.

Lemma u8_astype_uint8_floor (x : Q) :
  0 <= x <= 255 -> u8 (astype_uint8 x) = Qfloor x.
Proof.
  intros Hx. destruct (astype_uint8_in_range x Hx) as [-> _].
  rewrite truncate_floor_ceiling.
  replace (Qle_bool 0 x) with true; [reflexivity |].
  symmetry. apply Qle_bool_iff, Hx.
Qed.

(** The value the contrast stage stores, as an integer. *)
Lemma u8_contrast_sample (con : Q) (x : byte) :
  u8 (contrast_sample con x)
  = Qfloor (np_clip ((inject_Z (u8 x) - (255 # 2)) * con + (255 # 2)) 0 255).
Proof.
  unfold contrast_sample, astype_float32. apply u8_astype_uint8_floor.
  apply np_clip_bounds. lra.
Qed.

Lemma Qfloor_between (q : Q) (lo hi : Z) :
  inject_Z lo <= q -> q < inject_Z hi + 1 -> (lo <= Qfloor q <= hi)%Z.
Proof.
  intros H1 H2. split.
  - rewrite <- (Qfloor_Z lo). now apply Qfloor_resp_le.
  - pose proof (Qfloor_le q) as F.
    assert (L : inject_Z (Qfloor q) < inject_Z (hi + 1)).
    { rewrite inject_Z_plus. change (inject_Z 1) with 1. lra. }
    rewrite <- Zlt_Qlt in L. lia.
Qed.

Section ContrastProperties.
Context `{Externals}.

(** X3.  A contrast of 0 turns every sample into 127 (127.5 with its
    fraction dropped): the image becomes a flat grey. *)
Theorem adjust_contrast_zero (enhanced : ndarray byte) (con : Q) (i c : nat) :
  con == 0 ->
  sample (adjust_contrast enhanced con) i c
  = (fun _ => x7f) <$> sample enhanced i c.
Proof.
  intros Hc. rewrite adjust_contrast_map, sample_ndarray_map.
  destruct (sample enhanced i c) as [x |]; [| reflexivity]. cbn. f_equal.
  apply u8_inj. rewrite u8_contrast_sample.
  assert (E : np_clip ((inject_Z (u8 x) - (255 # 2)) * con + (255 # 2)) 0 255
              == 255 # 2).
  { rewrite np_clip_inside; rewrite Hc; [ring | lra]. }
  rewrite (Qfloor_comp _ _ E). reflexivity.
Qed.

(** X4.  For a non-negative contrast the adjustment preserves the order
    of brightness: a sample that is not brighter than another before is not
    brighter after. *)
Theorem adjust_contrast_monotone (enhanced : ndarray byte) (con : Q)
    (i c j d : nat) (x y : byte) :
  0 <= con ->
  sample enhanced i c = Some x -> sample enhanced j d = Some y ->
  (u8 x <= u8 y)%Z ->
  exists x' y',
    sample (adjust_contrast enhanced con) i c = Some x'
    /\ sample (adjust_contrast enhanced con) j d = Some y'
    /\ (u8 x' <= u8 y')%Z.
Proof.
  intros Hc Hx Hy Hle. rewrite adjust_contrast_map, !sample_ndarray_map.
  rewrite Hx, Hy. eexists _, _. split; [reflexivity |].
  split; [reflexivity |]. rewrite !u8_contrast_sample.
  apply Qfloor_resp_le, np_clip_monotone. rewrite Zle_Qle in Hle.
  assert (0 <= con * (inject_Z (u8 y) - inject_Z (u8 x)))
    by (apply Qmult_le_0_compat; lra).
  lra.
Qed.

(** X5.  The adjustment pivots about mid-grey.  With a contrast of at
    least 1, samples of 128 and more do not decrease and samples of 127 and
    less do not increase; with a contrast between 0 and 1 every sample
    moves toward 127 without crossing it; with a contrast equal to 1 the
    formula returns the sample itself. *)
Theorem adjust_contrast_pivot (enhanced : ndarray byte) (con : Q)
    (i c : nat) (x : byte) :
  sample enhanced i c = Some x ->
  exists x',
    sample (adjust_contrast enhanced con) i c = Some x'
    /\ (1 <= con ->
        ((128 <= u8 x)%Z -> (u8 x <= u8 x')%Z)
        /\ ((u8 x <= 127)%Z -> (u8 x' <= u8 x)%Z))
    /\ (0 <= con <= 1 ->
        ((128 <= u8 x)%Z -> (127 <= u8 x' <= u8 x)%Z)
        /\ ((u8 x <= 127)%Z -> (u8 x <= u8 x' <= 127)%Z))
    /\ (con == 1 -> x' = x).
Proof.
  intros Hx. rewrite adjust_contrast_map, sample_ndarray_map, Hx.
  eexists. split; [reflexivity |]. rewrite u8_contrast_sample.
  pose proof (u8_range x) as R.
  set (v := (inject_Z (u8 x) - (255 # 2)) * con + (255 # 2)).
  assert (R1 : 0 <= inject_Z (u8 x))
    by (change 0 with (inject_Z 0); rewrite <- Zle_Qle; lia).
  assert (R2 : inject_Z (u8 x) <= 255)
    by (change 255 with (inject_Z 255); rewrite <- Zle_Qle; lia).
  split; [| split].
  - intros Hc. split; intros Hh; rewrite Zle_Qle in Hh;
      change (inject_Z 128) with 128 in *;
      change (inject_Z 127) with 127 in *.
    + assert (Hv : inject_Z (u8 x) <= v).
      { unfold v.
        assert (0 <= (con - 1) * (inject_Z (u8 x) - (255 # 2)))
          by (apply Qmult_le_0_compat; lra).
        lra. }
      apply (Qfloor_between _ (u8 x) 255).
      * destruct (Qlt_le_dec 255 v) as [Hb | Hb].
        -- rewrite np_clip_above; lra.
        -- rewrite np_clip_inside; lra.
      * pose proof (np_clip_bounds v 0 255 ltac:(lra)).
        change (inject_Z 255) with 255. lra.
    + assert (Hv : v <= inject_Z (u8 x)).
      { unfold v.
        assert (0 <= (con - 1) * ((255 # 2) - inject_Z (u8 x)))
          by (apply Qmult_le_0_compat; lra).
        lra. }
      apply (Qfloor_between _ 0 (u8 x)).
      * apply np_clip_bounds. lra.
      * destruct (Qlt_le_dec v 0) as [Hb | Hb].
        -- rewrite np_clip_below; lra.
        -- rewrite np_clip_inside; lra.
  - intros [Hc0 Hc1]. split; intros Hh; rewrite Zle_Qle in Hh;
      change (inject_Z 128) with 128 in *;
      change (inject_Z 127) with 127 in *.
    + assert (Hv : (255 # 2) <= v <= inject_Z (u8 x)).
      { unfold v.
        assert (0 <= con * (inject_Z (u8 x) - (255 # 2)))
          by (apply Qmult_le_0_compat; lra).
        assert (0 <= (1 - con) * (inject_Z (u8 x) - (255 # 2)))
          by (apply Qmult_le_0_compat; lra).
        lra. }
      apply Qfloor_between; rewrite np_clip_inside; try lra.
      change (inject_Z 127) with 127. lra.
    + assert (Hv : inject_Z (u8 x) <= v <= (255 # 2)).
      { unfold v.
        assert (0 <= con * ((255 # 2) - inject_Z (u8 x)))
          by (apply Qmult_le_0_compat; lra).
        assert (0 <= (1 - con) * ((255 # 2) - inject_Z (u8 x)))
          by (apply Qmult_le_0_compat; lra).
        lra. }
      apply Qfloor_between; rewrite np_clip_inside; try lra.
      change (inject_Z 127) with 127. lra.
  - intros Hc. apply u8_inj. rewrite u8_contrast_sample. fold v.
    assert (E : np_clip v 0 255 == inject_Z (u8 x)).
    { rewrite np_clip_inside; unfold v; rewrite Hc; [ring | lra]. }
    rewrite (Qfloor_comp _ _ E). apply Qfloor_Z.
Qed.

End ContrastProperties.

Lemma adjust_contrast_zero_witness :
  0 == 0
  /\ sample (adjust_contrast Demo.decoded 0) 0 0
     = (fun _ => x7f) <$> sample Demo.decoded 0 0.
Proof.
  assert (H0 : 0 == 0) by reflexivity.
  split; [exact H0 |].
  exact (adjust_contrast_zero Demo.decoded 0 0 0 H0).
Defined.

Lemma adjust_contrast_monotone_witness :
  0 <= 3 # 2
  /\ sample Demo.decoded 2 0 = Some x00
  /\ sample Demo.decoded 3 0 = Some x82
  /\ (u8 x00 <= u8 x82)%Z
  /\ exists x' y',
       sample (adjust_contrast Demo.decoded (3 # 2)) 2 0 = Some x'
       /\ sample (adjust_contrast Demo.decoded (3 # 2)) 3 0 = Some y'
       /\ (u8 x' <= u8 y')%Z.
Proof.
  assert (H0 : 0 <= 3 # 2) by (unfold Qle; simpl; lia).
  assert (H1 : sample Demo.decoded 2 0 = Some x00) by reflexivity.
  assert (H2 : sample Demo.decoded 3 0 = Some x82) by reflexivity.
  assert (H3 : (u8 x00 <= u8 x82)%Z) by (vm_compute; discriminate).
  repeat (split; [assumption |]).
  exact (adjust_contrast_monotone Demo.decoded (3 # 2) 2 0 3 0 x00 x82
           H0 H1 H2 H3).
Defined.

Lemma adjust_contrast_pivot_witness :
  sample Demo.decoded 3 0 = Some x82
  /\ exists x',
       sample (adjust_contrast Demo.decoded (3 # 2)) 3 0 = Some x'
       /\ (1 <= 3 # 2 ->
           ((128 <= u8 x82)%Z -> (u8 x82 <= u8 x')%Z)
           /\ ((u8 x82 <= 127)%Z -> (u8 x' <= u8 x82)%Z))
       /\ (0 <= 3 # 2 <= 1 ->
           ((128 <= u8 x82)%Z -> (127 <= u8 x' <= u8 x82)%Z)
           /\ ((u8 x82 <= 127)%Z -> (u8 x82 <= u8 x' <= 127)%Z))
       /\ (3 # 2 == 1 -> x' = x82).
Proof.
  assert (H1 : sample Demo.decoded 3 0 = Some x82) by reflexivity.
  split; [exact H1 |].
  exact (adjust_contrast_pivot Demo.decoded (3 # 2) 3 0 x82 H1).
Defined.

(** The contrast adjustment, run: 130 becomes 131 at contrast 1.5
    ((130 - 127.5) * 1.5 + 127.5 = 131.25), 0 stays 0 and 255 stays 255. *)
Example adjust_contrast_run :
  adjust_contrast (Ndarray (Shape3 1 1 3) [ [x82; x00; xff] ]) (3 # 2)
  = Ndarray (Shape3 1 1 3) [ [x83; x00; xff] ].
Proof. vm_compute. reflexivity. Qed.

(** ** The saturation adjustment, sample by sample *)




(** ** The pipeline on well-formed rasters *)

Lemma wf_ndarray_transfer {A B : Type} (a : ndarray A) (b : ndarray B) :
  arr_shape a = arr_shape b ->
  length <$> arr_data a = length <$> arr_data b ->
  wf_ndarray a -> wf_ndarray b.
Proof.
  intros Hs Hl [H1 H2]. unfold wf_ndarray. rewrite <- Hs. split.
  - rewrite <- (length_fmap length (arr_data b)), <- Hl, length_fmap. exact H1.
  - apply (Forall_fmap length (fun n => n = channels (arr_shape a))) in H2.
    apply (Forall_fmap length (fun n => n = channels (arr_shape a))).
    rewrite <- Hl. exact H2.
Qed.

Lemma layout_imap_imap {A B : Type} (g : nat -> nat -> A -> B)
    (l : list (list A)) :
  length <$> imap (fun i px => imap (g i) px) l = length <$> l.
Proof.
  apply list_eq. intros i. rewrite !list_lookup_fmap, list_lookup_imap.
  destruct (l !! i) as [px |]; [| reflexivity]. cbn. f_equal.
  apply length_imap.
Qed.

Lemma layout_zip_with {A B C : Type} (f : A -> B -> C)
    (l : list (list A)) (k : list (list B)) :
  length <$> l = length <$> k ->
  length <$> zip_with (zip_with f) l k = length <$> l.
Proof.
  revert k. induction l as [| px l IH]; intros [| py k] E; try discriminate;
    [reflexivity |].
  cbn in *. injection E as E1 E2. f_equal; [| now apply IH].
  rewrite length_zip_with. lia.
Qed.

Lemma layout_fmap {A B : Type} (f : A -> B) (l : list (list A)) :
  length <$> (fmap (M:=list) f <$> l) = length <$> l.
Proof.
  rewrite <- list_fmap_compose. apply list_fmap_ext. intros _ px _. cbn.
  apply length_fmap.
Qed.

Lemma layout_alter {A : Type} (f : A -> A) (c : nat) (l : list (list A)) :
  length <$> (alter f c <$> l) = length <$> l.
Proof.
  rewrite <- list_fmap_compose. apply list_fmap_ext. intros _ px _. cbn.
  apply length_alter.
Qed.

Lemma layout_on_triple (f : byte * byte * byte -> byte * byte * byte)
    (l : list (list byte)) :
  Forall (fun px => length px = 3%nat) l ->
  length <$> (on_triple f <$> l) = length <$> l.
Proof.
  intros Hl. rewrite <- list_fmap_compose. apply Forall_fmap_ext.
  eapply Forall_impl; [exact Hl |]. intros px Hpx. cbn.
  destruct px as [| c0 [| c1 [| c2 [| c3 rest]]]]; try discriminate.
  cbn. destruct (f (c0, c1, c2)) as [[d0 d1] d2]. reflexivity.
Qed.

Lemma layout_swap_rb (l : list (list byte)) :
  Forall (fun px => length px = 3%nat) l ->
  length <$> (swap_rb <$> l) = length <$> l.
Proof.
  intros Hl. rewrite <- list_fmap_compose. apply Forall_fmap_ext.
  eapply Forall_impl; [exact Hl |]. intros px Hpx. cbn.
  destruct px as [| c0 [| c1 [| c2 [| c3 rest]]]]; try discriminate.
  reflexivity.
Qed.

Lemma mat_empty_shape {A B : Type} (a : ndarray A) (b : ndarray B) :
  arr_shape a = arr_shape b -> mat_empty a = mat_empty b.
Proof. intros E. unfold mat_empty. now rewrite E. Qed.

Section Totality.
Context `{Externals}.

Lemma unsharp_mask_layout (image_bgr sharpened : ndarray byte) (s : Q)
    (sigma : Z) :
  unsharp_mask image_bgr s sigma = Ok sharpened ->
  arr_shape sharpened = arr_shape image_bgr
  /\ length <$> arr_data sharpened = length <$> arr_data image_bgr.
Proof.
  intros E. destruct (unsharp_mask_inv _ _ _ _ E) as [Hne Hs].
  unfold unsharp_mask in E. rewrite (GaussianBlur_auto _ _ Hne Hs) in E.
  cbn [mbind result_bind] in E. unfold addWeighted in E.
  destruct (decide _) as [_ | Hc]; [| discriminate].
  injection E as <-. split; [reflexivity |]. cbn [arr_data blurred_of].
  apply layout_zip_with. symmetry. apply layout_imap_imap.
Qed.

Lemma denoise_layout (sharpened denoised : ndarray byte) (noise : Q) :
  denoise sharpened noise = Ok denoised ->
  arr_shape denoised = arr_shape sharpened
  /\ length <$> arr_data denoised = length <$> arr_data sharpened.
Proof.
  unfold denoise. destruct (float_gt noise 0).
  - unfold fastNlMeansDenoisingColored.
    destruct (bool_decide _); [| discriminate].
    intros [= <-]. split; [reflexivity |]. apply layout_imap_imap.
  - intros [= <-]. auto.
Qed.

Lemma denoise_three_channels (sharpened : ndarray byte) (noise : Q) :
  channels (arr_shape sharpened) = 3%nat ->
  exists denoised, denoise sharpened noise = Ok denoised.
Proof.
  intros Hc. unfold denoise. destruct (float_gt noise 0); [| eauto].
  unfold fastNlMeansDenoisingColored.
  rewrite bool_decide_eq_true_2 by (left; exact Hc). eauto.
Qed.

Lemma cvtColor_three_channels (src : ndarray byte) (code : color_code) :
  mat_empty src = false -> channels (arr_shape src) = 3%nat ->
  cvtColor src code
  = match code with
    | COLOR_RGB2BGR =>
        Ok (Ndarray (shape_hw3 (arr_shape src)) (swap_rb <$> arr_data src))
    | COLOR_BGR2HSV =>
        Ok (Ndarray (shape_hw3 (arr_shape src))
              (on_triple bgr2hsv <$> arr_data src))
    | COLOR_HSV2BGR =>
        Ok (Ndarray (shape_hw3 (arr_shape src))
              (on_triple hsv2bgr <$> arr_data src))
    | COLOR_GRAY2BGR =>
        Raise (cv2_error "Invalid number of channels in input image")
    end.
Proof.
  intros Hne Hc. unfold cvtColor. rewrite Hne, Hc.
  destruct code; reflexivity.
Qed.

Lemma color_enhance_three_channels (sharpened : ndarray byte) (sat con : Q)
    (h w : nat) :
  arr_shape sharpened = Shape3 h w 3 -> (0 < h * w)%nat ->
  exists enhanced,
    color_enhance sharpened sat con = Ok enhanced
    /\ arr_shape enhanced = Shape3 h w 3
    /\ (Forall (fun px => length px = 3%nat) (arr_data sharpened) ->
        length <$> arr_data enhanced = length <$> arr_data sharpened).
Proof.
  intros Hsh Hhw.
  assert (Hne : mat_empty sharpened = false).
  { unfold mat_empty. rewrite Hsh. apply bool_decide_eq_false. lia. }
  assert (Hc : channels (arr_shape sharpened) = 3%nat) by now rewrite Hsh.
  unfold color_enhance.
  destruct (float_ne sat 1 || float_ne con 1); [| eauto].
  unfold hsv_round_trip.
  rewrite (cvtColor_three_channels _ COLOR_BGR2HSV Hne Hc).
  cbn [mbind result_bind].
  match goal with
  | |- context [cvtColor ?a COLOR_HSV2BGR] =>
      assert (Ha : arr_shape a = Shape3 h w 3)
        by (destruct (float_ne sat 1); cbn; rewrite Hsh; reflexivity);
      assert (Hl : Forall (fun px => length px = 3%nat) (arr_data sharpened) ->
                   length <$> arr_data a = length <$> arr_data sharpened)
        by (intros Hwf; destruct (float_ne sat 1); cbn;
            repeat (rewrite layout_fmap || rewrite layout_alter);
            now apply layout_on_triple);
      rewrite (cvtColor_three_channels a COLOR_HSV2BGR);
        [| unfold mat_empty; rewrite Ha; apply bool_decide_eq_false; lia
         | now rewrite Ha];
      remember a as arr eqn:Earr; clear Earr
  end.
  cbn [mbind result_bind]. eexists. split; [reflexivity |].
  split.
  - destruct (float_ne con 1); [rewrite adjust_contrast_map |]; cbn;
      rewrite Ha; reflexivity.
  - intros Hwf. specialize (Hl Hwf).
    assert (Hwa : Forall (fun px => length px = 3%nat) (arr_data arr)).
    { apply (Forall_fmap length (fun n => n = 3%nat)). rewrite Hl.
      now apply (Forall_fmap length (fun n => n = 3%nat)). }
    destruct (float_ne con 1); [rewrite adjust_contrast_map |]; cbn;
      rewrite ?layout_fmap, layout_on_triple by exact Hwa; exact Hl.
Qed.

End Totality.

Section PipelineTotality.
Context `{Externals}.

(** The pipeline on a non-empty three-channel raster: every stage
    returns, and none changes the shape or the number of samples of a
    pixel. *)
Lemma enhance_stages (image_bgr : ndarray byte) (p : FilterParameters)
    (h w : nat) (world0 : world) :
  arr_shape image_bgr = Shape3 h w 3 -> (0 < h * w)%nat ->
  (0 < blur_sigma p)%Z ->
  exists sharpened denoised enhanced,
    unsharp_mask image_bgr (sharpening_strength p) (blur_sigma p)
      = Ok sharpened
    /\ denoise sharpened (noise_reduction p) = Ok denoised
    /\ color_enhance denoised (saturation p) (contrast p) = Ok enhanced
    /\ enhance image_bgr p world0 = (Ok enhanced, world0)
    /\ arr_shape enhanced = Shape3 h w 3
    /\ (Forall (fun px => length px = 3%nat) (arr_data image_bgr) ->
        length <$> arr_data enhanced = length <$> arr_data image_bgr).
Proof.
  intros Hsh Hhw Hs.
  assert (Hne : mat_empty image_bgr = false).
  { unfold mat_empty. rewrite Hsh. apply bool_decide_eq_false. lia. }
  destruct (unsharp_mask_formula image_bgr (sharpening_strength p)
              (blur_sigma p) Hne Hs) as (sharpened & E1 & _).
  destruct (unsharp_mask_layout _ _ _ _ E1) as [S1 L1].
  destruct (denoise_three_channels sharpened (noise_reduction p))
    as [denoised E2]; [now rewrite S1, Hsh |].
  destruct (denoise_layout _ _ _ E2) as [S2 L2].
  destruct (color_enhance_three_channels denoised (saturation p) (contrast p)
              h w) as (enhanced & E3 & S3 & L3);
    [now rewrite S2, S1 | exact Hhw |].
  exists sharpened, denoised, enhanced.
  split; [exact E1 |]. split; [exact E2 |]. split; [exact E3 |].
  split; [| split; [exact S3 |]].
  - rewrite enhance_unfold, E1.
    unfold after_unsharp_mask, lift, mbind, M_bind. rewrite E2, E3.
    unfold ensure_color. rewrite S3. reflexivity.
  - intros Hpx. rewrite L3, L2, L1; [reflexivity |].
    apply (Forall_fmap length (fun n => n = 3%nat)). rewrite L2, L1.
    now apply (Forall_fmap length (fun n => n = 3%nat)).
Qed.

(** X7.  On a non-empty raster of shape (h, w, 3) and with a positive
    [blur_sigma], the pipeline never raises, whatever the other five
    parameters are: it returns a raster of shape (h, w, 3), rectangular if
    the input is, and prints nothing. *)
Theorem enhance_succeeds (image_bgr : ndarray byte) (p : FilterParameters)
    (h w : nat) (world0 : world) :
  arr_shape image_bgr = Shape3 h w 3 -> (0 < h * w)%nat ->
  (0 < blur_sigma p)%Z ->
  exists out,
    enhance image_bgr p world0 = (Ok out, world0)
    /\ arr_shape out = Shape3 h w 3
    /\ (wf_ndarray image_bgr -> wf_ndarray out).
Proof.
  intros Hsh Hhw Hs.
  destruct (enhance_stages image_bgr p h w world0 Hsh Hhw Hs)
    as (sharpened & denoised & enhanced & _ & _ & _ & E & S & L).
  exists enhanced. split; [exact E |]. split; [exact S |].
  intros Hwf. apply (wf_ndarray_transfer image_bgr).
  - now rewrite S.
  - symmetry. apply L. destruct Hwf as [_ Hpx].
    rewrite Hsh in Hpx. exact Hpx.
  - exact Hwf.
Qed.

(** A returned output path tells that every stage returned. *)
Lemma process_raw_image_success_inv (input_path output_path : string)
    (p : FilterParameters) (w w' : world) (path : string) :
  process_raw_image input_path output_path p w = (Ok (Some path), w') ->
  path = output_path
  /\ is_Some (fs w !! input_path)
  /\ exists w1 rgb_image w2 image_bgr enhanced w3 written w4,
       create_output_dir output_path w = (Ok tt, w1)
       /\ rawpy_imread_postprocess input_path
            (World (fs w1)
               (stdout w1 ++ ["Processing RAW image: " +:+ input_path]))
          = (Ok rgb_image, w2)
       /\ cvtColor rgb_image COLOR_RGB2BGR = Ok image_bgr
       /\ enhance image_bgr p w2 = (Ok enhanced, w3)
       /\ cv2_imwrite output_path enhanced
            [IMWRITE_JPEG_QUALITY; jpeg_quality p] w3 = (Ok written, w4)
       /\ w' = World (fs w4)
                 (stdout w4 ++ ["Processed image saved to: " +:+ output_path]).
Proof.
  unfold process_raw_image, try_except.
  destruct (process_raw_image_try input_path output_path p w)
    as [[r | e] w0] eqn:E.
  2: { rewrite process_raw_image_except_run. discriminate. }
  intros [= -> ->]. unfold process_raw_image_try in E.
  unfold mbind at 1, M_bind at 1 in E. rewrite os_path_exists_run in E.
  destruct (bool_decide (is_Some (fs w !! input_path))) eqn:Hin;
    cbn [negb] in E.
  2: { unfold print, mbind, M_bind, mret, M_ret in E. discriminate. }
  apply bool_decide_eq_true in Hin.
  unfold mbind at 1, M_bind at 1 in E.
  destruct (create_output_dir output_path w) as [[[] | e] w1] eqn:E0;
    [| discriminate].
  unfold convert in E. unfold mbind at 1, M_bind at 1, print at 1 in E.
  unfold mbind at 1, M_bind at 1 in E.
  destruct (rawpy_imread_postprocess input_path _) as [[rgb | e] w2] eqn:E1;
    [| discriminate].
  unfold develop, lift in E. unfold mbind at 1, M_bind at 1 in E.
  destruct (cvtColor rgb COLOR_RGB2BGR) as [bgr | e] eqn:E2; [| discriminate].
  unfold mbind at 1, M_bind at 1 in E.
  destruct (enhance bgr p w2) as [[enhanced | e] w3] eqn:E3; [| discriminate].
  unfold mbind at 1, M_bind at 1 in E.
  destruct (cv2_imwrite output_path enhanced _ w3) as [[b | e] w4] eqn:E4;
    [| discriminate].
  unfold print, mbind, M_bind, mret, M_ret in E. injection E as <- <-.
  split; [reflexivity |]. split; [exact Hin |].
  exists w1, rgb, w2, bgr, enhanced, w3, b, w4. auto 10.
Qed.

End PipelineTotality.

Lemma enhance_succeeds_witness :
  arr_shape Demo.decoded = Shape3 2 2 3
  /\ (0 < 2 * 2)%nat
  /\ (0 < blur_sigma (scale_parameters reset_parameters))%Z
  /\ exists out,
       @enhance Demo.externals Demo.decoded (scale_parameters reset_parameters)
          Demo.photos = (Ok out, Demo.photos)
       /\ arr_shape out = Shape3 2 2 3
       /\ (wf_ndarray Demo.decoded -> wf_ndarray out).
Proof.
  assert (H1 : arr_shape Demo.decoded = Shape3 2 2 3) by reflexivity.
  assert (H2 : (0 < 2 * 2)%nat) by (simpl; lia).
  assert (H3 : (0 < blur_sigma (scale_parameters reset_parameters))%Z)
    by reflexivity.
  repeat (split; [assumption |]).
  exact (@enhance_succeeds Demo.externals Demo.decoded
           (scale_parameters reset_parameters) 2 2 Demo.photos H1 H2 H3).
Defined.

Section BlurSigma.
Context `{Externals}.

(** X8.  With [blur_sigma <= 0] the pipeline raises on every image
    ([cv2.GaussianBlur] rejects the kernel), so [process_raw_image] returns
    [None] for every input, after printing an "Error" line. *)
Theorem nonpositive_blur_sigma_fails (input_path output_path : string)
    (p : FilterParameters) (w : world) :
  (blur_sigma p <= 0)%Z ->
  (forall image_bgr w0, exists e, enhance image_bgr p w0 = (Raise e, w0))
  /\ exists w' msg,
       process_raw_image input_path output_path p w = (Ok None, w')
       /\ last (stdout w') = Some ("Error" +:+ msg).
Proof.
  intros Hs.
  assert (Hraise : forall image_bgr w0,
             exists e, enhance image_bgr p w0 = (Raise e, w0)).
  { intros image_bgr w0. rewrite enhance_unfold. unfold unsharp_mask.
    destruct (GaussianBlur_nonpositive image_bgr (blur_sigma p) Hs) as [e ->].
    eauto. }
  split; [exact Hraise |].
  destruct (process_raw_image_never_raises input_path output_path p w)
    as (r & w' & E & [-> | [-> [msg Hmsg]]]).
  - destruct (process_raw_image_success_inv _ _ _ _ _ _ E)
      as (_ & _ & w1 & rgb & w2 & bgr & enhanced & w3 & b & w4
          & _ & _ & _ & E3 & _).
    destruct (Hraise bgr w2) as [e He]. rewrite He in E3. discriminate.
  - exists w', msg. auto.
Qed.

(** X9.  If the input exists, the output directory is there or can be
    made, the decoder returns a non-empty rectangular raster of shape
    (h, w, 3), [blur_sigma] is positive and the encoder does not raise on
    rasters of that shape, then
    [process_raw_image] returns the output path and its last printed line is
    "Processed image saved to: ...": no other stage can fail. *)
Theorem process_raw_image_succeeds (input_path output_path : string)
    (p : FilterParameters) (w w1 w2 : world) (rgb_image : ndarray byte)
    (h wd : nat) :
  is_Some (fs w !! input_path) ->
  create_output_dir output_path w = (Ok tt, w1) ->
  rawpy_imread_postprocess input_path
    (World (fs w1) (stdout w1 ++ ["Processing RAW image: " +:+ input_path]))
    = (Ok rgb_image, w2) ->
  arr_shape rgb_image = Shape3 h wd 3 -> (0 < h * wd)%nat ->
  wf_ndarray rgb_image ->
  (0 < blur_sigma p)%Z ->
  (forall img,
      arr_shape img = Shape3 h wd 3 -> wf_ndarray img ->
      exists written w3,
        cv2_imwrite output_path img [IMWRITE_JPEG_QUALITY; jpeg_quality p] w2
        = (Ok written, w3)) ->
  exists w',
    process_raw_image input_path output_path p w = (Ok (Some output_path), w')
    /\ last (stdout w')
       = Some ("Processed image saved to: " +:+ output_path).
Proof.
  intros Hin Hdir Hdec Hsh Hhw Hwf Hs Hwr.
  assert (Hne : mat_empty rgb_image = false).
  { unfold mat_empty. rewrite Hsh. apply bool_decide_eq_false. lia. }
  assert (Hbgr := cvtColor_three_channels rgb_image COLOR_RGB2BGR Hne
                    ltac:(now rewrite Hsh)).
  cbv iota in Hbgr.
  destruct (enhance_stages
              (Ndarray (shape_hw3 (arr_shape rgb_image))
                 (swap_rb <$> arr_data rgb_image)) p h wd w2)
    as (sharpened & denoised & enhanced & _ & _ & _ & Henh & Hesh & Hel);
    [now rewrite Hsh | exact Hhw | exact Hs |].
  assert (Hpx : Forall (fun px => length px = 3%nat) (arr_data rgb_image)).
  { destruct Hwf as [_ Hpx]. now rewrite Hsh in Hpx. }
  destruct (Hwr enhanced Hesh) as (written & w3 & Hw).
  { apply (wf_ndarray_transfer rgb_image).
    - now rewrite Hsh.
    - symmetry. rewrite Hel; cbn [arr_data].
      + now apply layout_swap_rb.
      + apply (Forall_fmap length (fun n => n = 3%nat)).
        rewrite layout_swap_rb by exact Hpx.
        now apply (Forall_fmap length (fun n => n = 3%nat)).
    - exact Hwf. }
  eexists. split.
  - unfold process_raw_image, try_except, process_raw_image_try.
    unfold mbind, M_bind. rewrite os_path_exists_run.
    rewrite bool_decide_eq_true_2 by exact Hin. cbn [negb].
    rewrite Hdir. unfold convert, mbind, M_bind, print at 1.
    rewrite Hdec. unfold develop, lift, mbind, M_bind.
    rewrite Hbgr, Henh, Hw. reflexivity.
  - cbn [stdout]. apply last_snoc.
Qed.

End BlurSigma.

Lemma nonpositive_blur_sigma_fails_witness :
  (blur_sigma (scale_parameters sliders_all_zero) <= 0)%Z
  /\ exists w' msg,
       @process_raw_image Demo.externals "/photos/shot.nef"
          "/photos/out/shot.jpg" (scale_parameters sliders_all_zero)
          Demo.photos = (Ok None, w')
       /\ last (stdout w') = Some ("Error" +:+ msg).
Proof.
  assert (H0 : (blur_sigma (scale_parameters sliders_all_zero) <= 0)%Z)
    by (vm_compute; discriminate).
  split; [exact H0 |].
  exact (proj2 (@nonpositive_blur_sigma_fails Demo.externals "/photos/shot.nef"
                  "/photos/out/shot.jpg" (scale_parameters sliders_all_zero)
                  Demo.photos H0)).
Defined.

Lemma process_raw_image_succeeds_witness :
  is_Some (fs Demo.photos !! "/photos/shot.nef")
  /\ wf_ndarray Demo.decoded
  /\ (0 < blur_sigma (scale_parameters reset_parameters))%Z
  /\ exists w',
       @process_raw_image Demo.externals "/photos/shot.nef"
          "/photos/out/shot.jpg" (scale_parameters reset_parameters)
          Demo.photos = (Ok (Some "/photos/out/shot.jpg"), w')
       /\ last (stdout w')
          = Some ("Processed image saved to: " +:+ "/photos/out/shot.jpg").
Proof.
  assert (H0 : is_Some (fs Demo.photos !! "/photos/shot.nef"))
    by (vm_compute; eauto).
  assert (H1 : (0 < blur_sigma (scale_parameters reset_parameters))%Z)
    by reflexivity.
  split; [exact H0 |]. split; [exact wf_decoded |]. split; [exact H1 |].
  refine (@process_raw_image_succeeds Demo.externals "/photos/shot.nef"
            "/photos/out/shot.jpg" (scale_parameters reset_parameters)
            Demo.photos _ _ Demo.decoded 2 2 H0 _ _ _ _ wf_decoded H1 _).
  - vm_compute. reflexivity.
  - vm_compute. reflexivity.
  - reflexivity.
  - simpl. lia.
  - intros img Hsh [Hlen _]. rewrite Hsh in Hlen. cbn.
    unfold Demo.imwrite_file.
    rewrite bool_decide_eq_false_2
      by (intros C; rewrite C in Hlen; discriminate).
    match goal with
    | |- context [fs ?w !! ?k] => destruct (fs w !! k) as [[] |]
    end; eauto.
Defined.

Section NeutralRun.
Context `{Externals}.

(** The pipeline with neutral parameters returns its input. *)
Lemma enhance_neutral (image_bgr : ndarray byte) (p : FilterParameters)
    (h w : nat) (world0 : world) :
  arr_shape image_bgr = Shape3 h w 3 -> (0 < h * w)%nat ->
  (0 < blur_sigma p)%Z ->
  sharpening_strength p == 0 -> noise_reduction p == 0 ->
  saturation p == 1 -> contrast p == 1 ->
  enhance image_bgr p world0 = (Ok image_bgr, world0).
Proof.
  intros Hsh Hhw Hsigma Hs Hn Hsat Hcon.
  assert (Hne : mat_empty image_bgr = false).
  { unfold mat_empty. rewrite Hsh. apply bool_decide_eq_false. lia. }
  rewrite enhance_unfold, (unsharp_mask_zero _ _ _ Hne Hsigma Hs).
  unfold after_unsharp_mask, lift, mbind, M_bind.
  rewrite (denoise_off _ _ Hn), (color_enhance_off _ _ _ Hsat Hcon).
  unfold ensure_color. rewrite Hsh. reflexivity.
Qed.

(** X10.  With neutral parameters (strength 0, no denoising, saturation
    and contrast 1) and a positive [blur_sigma], what [process_raw_image]
    hands to the encoder is the decoded raster with channels 0 and 2
    exchanged (RGB to BGR) and nothing else changed. *)
Theorem neutral_run_encodes_decoded_raster (input_path output_path : string)
    (p : FilterParameters) (w w1 w2 w3 : world) (rgb_image : ndarray byte)
    (h wd : nat) (written : bool) :
  is_Some (fs w !! input_path) ->
  create_output_dir output_path w = (Ok tt, w1) ->
  rawpy_imread_postprocess input_path
    (World (fs w1) (stdout w1 ++ ["Processing RAW image: " +:+ input_path]))
    = (Ok rgb_image, w2) ->
  arr_shape rgb_image = Shape3 h wd 3 -> (0 < h * wd)%nat ->
  (0 < blur_sigma p)%Z ->
  sharpening_strength p == 0 -> noise_reduction p == 0 ->
  saturation p == 1 -> contrast p == 1 ->
  cv2_imwrite output_path
    (Ndarray (Shape3 h wd 3) (swap_rb <$> arr_data rgb_image))
    [IMWRITE_JPEG_QUALITY; jpeg_quality p] w2 = (Ok written, w3) ->
  process_raw_image input_path output_path p w
  = (Ok (Some output_path),
     World (fs w3)
       (stdout w3 ++ ["Processed image saved to: " +:+ output_path])).
Proof.
  intros Hin Hdir Hdec Hsh Hhw Hs Hst Hn Hsat Hcon Hw.
  assert (Hne : mat_empty rgb_image = false).
  { unfold mat_empty. rewrite Hsh. apply bool_decide_eq_false. lia. }
  assert (Hbgr := cvtColor_three_channels rgb_image COLOR_RGB2BGR Hne
                    ltac:(now rewrite Hsh)).
  cbv iota in Hbgr. rewrite Hsh in Hbgr. cbn [shape_hw3] in Hbgr.
  pose proof (enhance_neutral
                (Ndarray (Shape3 h wd 3) (swap_rb <$> arr_data rgb_image))
                p h wd w2 eq_refl Hhw Hs Hst Hn Hsat Hcon) as Henh.
  unfold process_raw_image, try_except, process_raw_image_try.
  unfold mbind, M_bind. rewrite os_path_exists_run.
  rewrite bool_decide_eq_true_2 by exact Hin. cbn [negb].
  rewrite Hdir. unfold convert, mbind, M_bind, print at 1.
  rewrite Hdec. unfold develop, lift, mbind, M_bind.
  rewrite Hbgr, Henh, Hw. reflexivity.
Qed.

End NeutralRun.

Lemma neutral_run_encodes_decoded_raster_witness :
  is_Some (fs Demo.photos !! "/photos/shot.nef")
  /\ @process_raw_image Demo.externals "/photos/shot.nef"
        "/photos/out/shot.jpg" Demo.neutral Demo.photos
     = (Ok (Some "/photos/out/shot.jpg"),
        World (<["/photos/out/shot.jpg" := File]>
                 (<["/photos/out" := Dir]> (fs Demo.photos)))
          ["Processing RAW image: /photos/shot.nef";
           "Processed image saved to: /photos/out/shot.jpg"]).
Proof.
  assert (H0 : is_Some (fs Demo.photos !! "/photos/shot.nef"))
    by (vm_compute; eauto).
  split; [exact H0 |].
  refine (@neutral_run_encodes_decoded_raster Demo.externals
            "/photos/shot.nef" "/photos/out/shot.jpg" Demo.neutral
            Demo.photos
            (World (<["/photos/out" := Dir]> (fs Demo.photos)) [])
            (World (<["/photos/out" := Dir]> (fs Demo.photos))
               ["Processing RAW image: /photos/shot.nef"])
            (World (<["/photos/out/shot.jpg" := File]>
                      (<["/photos/out" := Dir]> (fs Demo.photos)))
               ["Processing RAW image: /photos/shot.nef"])
            Demo.decoded 2 2 true H0 _ _ _ _ _ _ _ _ _ _);
    try reflexivity; try (simpl; lia); vm_compute; reflexivity.
Defined.

(** ** Monotonicity of the parameter scaling *)

Lemma truncate_monotone (q q' : Q) : q <= q' -> (truncate q <= truncate q')%Z.
Proof.
  intros H. rewrite !truncate_floor_ceiling.
  destruct (Qle_bool 0 q) eqn:B, (Qle_bool 0 q') eqn:B'.
  - now apply Qfloor_resp_le.
  - apply Qle_bool_iff in B.
    assert (C : 0 <= q') by lra. apply Qle_bool_iff in C. congruence.
  - assert (Hq : q < 0).
    { apply Qnot_le_lt. intros C. apply Qle_bool_iff in C. congruence. }
    apply Qle_bool_iff in B'.
    assert (C1 : (Qceiling q <= 0)%Z).
    { change 0%Z with (Qceiling 0). apply Qceiling_resp_le. lra. }
    assert (C2 : (0 <= Qfloor q')%Z).
    { change 0%Z with (Qfloor 0). now apply Qfloor_resp_le. }
    lia.
  - now apply Qceiling_resp_le.
Qed.

(** X11.  The scaling is monotone: moving any slider to a larger value
    never lowers the parameter it controls (for the two integer parameters
    the value may stay the same). *)
Theorem scale_parameters_monotone (self self' : RawImageProcessorApp) :
  self_sharpening_strength self <= self_sharpening_strength self' ->
  self_blur_sigma self <= self_blur_sigma self' ->
  self_jpeg_quality self <= self_jpeg_quality self' ->
  self_noise_reduction self <= self_noise_reduction self' ->
  self_saturation self <= self_saturation self' ->
  self_contrast self <= self_contrast self' ->
  sharpening_strength (scale_parameters self)
    <= sharpening_strength (scale_parameters self')
  /\ (blur_sigma (scale_parameters self)
      <= blur_sigma (scale_parameters self'))%Z
  /\ (jpeg_quality (scale_parameters self)
      <= jpeg_quality (scale_parameters self'))%Z
  /\ noise_reduction (scale_parameters self)
     <= noise_reduction (scale_parameters self')
  /\ saturation (scale_parameters self) <= saturation (scale_parameters self')
  /\ contrast (scale_parameters self) <= contrast (scale_parameters self').
Proof.
  intros Hs Hb Hq Hn Hsat Hc.
  unfold scale_parameters, py_int, IntVar_get, DoubleVar_get.
  cbn [sharpening_strength noise_reduction saturation contrast
       blur_sigma jpeg_quality].
  assert (E100 : / 100 == 1 # 100) by reflexivity.
  assert (E50 : / 50 == 1 # 50) by reflexivity.
  unfold Qdiv. rewrite E100, E50.
  repeat apply conj; try lra; now apply truncate_monotone.
Qed.

Lemma scale_parameters_monotone_witness :
  self_sharpening_strength sliders_all_zero
    <= self_sharpening_strength sliders_between_marks
  /\ self_blur_sigma sliders_all_zero <= self_blur_sigma sliders_between_marks
  /\ sharpening_strength (scale_parameters sliders_all_zero)
     <= sharpening_strength (scale_parameters sliders_between_marks)
  /\ (blur_sigma (scale_parameters sliders_all_zero)
      <= blur_sigma (scale_parameters sliders_between_marks))%Z.
Proof.
  assert (H1 : self_sharpening_strength sliders_all_zero
               <= self_sharpening_strength sliders_between_marks)
    by (unfold Qle; simpl; lia).
  assert (H2 : self_blur_sigma sliders_all_zero
               <= self_blur_sigma sliders_between_marks)
    by (unfold Qle; simpl; lia).
  assert (H3 : self_jpeg_quality sliders_all_zero
               <= self_jpeg_quality sliders_between_marks)
    by (unfold Qle; simpl; lia).
  assert (H4 : self_noise_reduction sliders_all_zero
               <= self_noise_reduction sliders_between_marks)
    by (unfold Qle; simpl; lia).
  assert (H5 : self_saturation sliders_all_zero
               <= self_saturation sliders_between_marks)
    by (unfold Qle; simpl; lia).
  assert (H6 : self_contrast sliders_all_zero
               <= self_contrast sliders_between_marks)
    by (unfold Qle; simpl; lia).
  pose proof (scale_parameters_monotone sliders_all_zero sliders_between_marks
                H1 H2 H3 H4 H5 H6) as M.
  split; [exact H1 |]. split; [exact H2 |].
  split; [exact (proj1 M) | exact (proj1 (proj2 M))].
Defined.

(** * The application window *)

Lemma truthy_true (s : string) : truthy s = true <-> s <> "".
Proof.
  unfold truthy. rewrite negb_true_iff. apply String.eqb_neq.
Qed.

Lemma truthy_false (s : string) : truthy s = false <-> s = "".
Proof.
  unfold truthy. rewrite negb_false_iff. apply String.eqb_eq.
Qed.

(** X12.  [reset_parameters] brings the six slider variables back to the
    values [__init__] gave them, whatever they were, and leaves every
    label showing the value of its variable (the last three writes all
    refresh the labels); paths, status, buttons and the other attributes
    are untouched. *)
Theorem reset_parameters_restores_defaults (self : gui) :
  gui_vars (App_reset_parameters self) = gui_vars App_init
  /\ gui_labels (App_reset_parameters self) = gui_labels App_init
  /\ labels_fresh (App_reset_parameters self)
  /\ App_reset_parameters self
     = with_labels (gui_labels App_init) (with_vars (gui_vars App_init) self).
Proof.
  destruct self. repeat split; reflexivity.
Qed.

(** X13.  Only four of the six variables refresh the labels.  A write to
    [blur_sigma] or [jpeg_quality] (the user moving that slider) changes no
    label: if the labels were up to date and the integer part of the value
    changes, the label goes stale, until a write to one of the other four
    variables brings all six labels up to date again. *)
Theorem untraced_sliders_leave_labels_stale (self : gui) (v v' : Q) :
  labels_fresh self ->
  truncate v <> truncate (self_blur_sigma (gui_vars self)) ->
  gui_labels (blur_sigma_set v self) = gui_labels self
  /\ gui_labels (jpeg_quality_set v self) = gui_labels self
  /\ blur_label (gui_labels (blur_sigma_set v self))
     <> str_int (IntVar_get (self_blur_sigma (gui_vars (blur_sigma_set v self))))
  /\ ~ labels_fresh (blur_sigma_set v self)
  /\ labels_fresh (sharpening_strength_set v' (blur_sigma_set v self))
  /\ labels_fresh (noise_reduction_set v' (blur_sigma_set v self))
  /\ labels_fresh (saturation_set v' (blur_sigma_set v self))
  /\ labels_fresh (contrast_set v' (blur_sigma_set v self)).
Proof.
  intros Hfresh Hne.
  assert (Hstale : blur_label (gui_labels (blur_sigma_set v self))
                   <> str_int (IntVar_get
                        (self_blur_sigma (gui_vars (blur_sigma_set v self))))).
  { cbn. rewrite Hfresh. cbn. unfold str_int, IntVar_get. intros C.
    apply (inj pretty) in C. congruence. }
  split; [reflexivity |]. split; [reflexivity |]. split; [exact Hstale |].
  split; [| repeat split; reflexivity].
  intros C. apply Hstale. rewrite C. reflexivity.
Qed.

Lemma untraced_sliders_leave_labels_stale_witness :
  labels_fresh App_init
  /\ truncate 20 <> truncate (self_blur_sigma (gui_vars App_init))
  /\ blur_label (gui_labels (blur_sigma_set 20 App_init)) = "3"
  /\ ~ labels_fresh (blur_sigma_set 20 App_init)
  /\ labels_fresh (contrast_set 60 (blur_sigma_set 20 App_init)).
Proof.
  assert (H1 : labels_fresh App_init) by reflexivity.
  assert (H2 : truncate 20 <> truncate (self_blur_sigma (gui_vars App_init)))
    by (vm_compute; discriminate).
  pose proof (untraced_sliders_leave_labels_stale App_init 20 60 H1 H2) as T.
  split; [exact H1 |]. split; [exact H2 |]. split; [reflexivity |].
  split; [exact (proj1 (proj2 (proj2 (proj2 T)))) |].
  exact (proj2 (proj2 (proj2 (proj2 (proj2 (proj2 (proj2 T))))))).
Defined.

Section WindowProperties.
Context `{Externals}.

(** What [do_process_image] does in terms of the result of
    [process_raw_image]. *)
Lemma App_do_process_image_run (self : gui) (w : world) :
  exists result w',
    process_raw_image (gui_input_path self) (gui_output_path self)
      (scale_parameters (gui_vars self)) w = (Ok result, w')
    /\ (result = None \/ result = Some (gui_output_path self))
    /\ App_do_process_image self w
       = (do_process_image_finally (update_ui result self), w').
Proof.
  destruct (process_raw_image_never_raises (gui_input_path self)
              (gui_output_path self) (scale_parameters (gui_vars self)) w)
    as (r & w' & E & Hr).
  exists r, w'. split; [exact E |]. split.
  - destruct Hr as [-> | [-> _]]; auto.
  - unfold App_do_process_image, StringVar_get. rewrite E. reflexivity.
Qed.

(** X14.  [do_process_image] always ends with the process button
    enabled, the progress bar stopped and [processing] cleared, and never
    reaches its own exception handler: the status is either the success
    text or "Image processing failed.".  On success the output path is
    recorded, the view button is enabled and an information box is shown;
    on failure the recorded path and the view button are left as they were
    and an error box is shown.  Paths, sliders and labels never change. *)
Theorem do_process_image_outcome (self : gui) (w : world) :
  exists self' w',
    App_do_process_image self w = (self', w')
    /\ gui_process_button self' = NORMAL
    /\ gui_progress self' = None
    /\ gui_processing self' = false
    /\ gui_input_path self' = gui_input_path self
    /\ gui_output_path self' = gui_output_path self
    /\ gui_vars self' = gui_vars self
    /\ gui_labels self' = gui_labels self
    /\ gui_after self' = gui_after self
    /\ ((process_raw_image (gui_input_path self) (gui_output_path self)
           (scale_parameters (gui_vars self)) w
         = (Ok (Some (gui_output_path self)), w')
         /\ gui_output_path self <> ""
         /\ gui_status_text self'
            = "Image processed successfully: " +:+ gui_output_path self
         /\ gui_last_processed_image self' = Some (gui_output_path self)
         /\ gui_view_button self' = NORMAL
         /\ gui_messageboxes self'
            = gui_messageboxes self
                ++ [showinfo "Success"
                      ("Image processed successfully and saved to:"
                         +:+ String "010"%char (gui_output_path self))])
        \/ (gui_status_text self' = "Image processing failed."
            /\ gui_last_processed_image self' = gui_last_processed_image self
            /\ gui_view_button self' = gui_view_button self
            /\ gui_messageboxes self'
               = gui_messageboxes self
                   ++ [showerror "Error"
                         "Failed to process the image. Check console for details."])).
Proof.
  destruct (App_do_process_image_run self w) as (r & w' & E & Hr & ->).
  eexists _, w'. split; [reflexivity |].
  unfold update_ui.
  destruct (truthy_result r) eqn:T.
  - destruct Hr as [-> | ->]; [discriminate |]. cbn in T.
    apply truthy_true in T.
    repeat (split; [reflexivity |]). left. rewrite E. cbn.
    repeat split; try reflexivity. exact T.
  - repeat (split; [reflexivity |]). right. repeat split; reflexivity.
Qed.

(** X15.  When the input path names no existing file, [do_process_image]
    reports the failure in the window and changes nothing on disk: the
    status becomes "Image processing failed.", one error box is shown, the
    view button and the recorded path stay as they were, and the console
    gets the "does not exist" line. *)
Theorem do_process_image_missing_input (self : gui) (w : world) :
  fs w !! gui_input_path self = None ->
  exists self' w',
    App_do_process_image self w = (self', w')
    /\ fs w' = fs w
    /\ stdout w'
       = stdout w ++ ["Error: Input file '" +:+ gui_input_path self
                        +:+ "' does not exist."]
    /\ gui_status_text self' = "Image processing failed."
    /\ gui_view_button self' = gui_view_button self
    /\ gui_last_processed_image self' = gui_last_processed_image self
    /\ gui_process_button self' = NORMAL
    /\ gui_messageboxes self'
       = gui_messageboxes self
           ++ [showerror "Error"
                 "Failed to process the image. Check console for details."].
Proof.
  intros Hin. eexists _, _. split.
  - unfold App_do_process_image, StringVar_get.
    unfold process_raw_image, try_except, process_raw_image_try.
    unfold mbind, M_bind. rewrite os_path_exists_run.
    rewrite bool_decide_eq_false_2
      by (rewrite Hin; intros [x Hx]; discriminate).
    cbn. reflexivity.
  - repeat split; reflexivity.
Qed.

(** X16.  [process_image] starts a run only when both paths are set.
    With an empty input or output path it shows one error box, queues
    nothing and leaves the rest of the window as it was.  Otherwise it
    disables the process button, starts the progress bar, sets
    [processing] and queues [do_process_image]; once the event loop has run
    the queued callback the button is enabled again, the bar is stopped,
    [processing] is cleared and the queue is empty. *)
Theorem process_image_then_callback (self : gui) (w : world) :
  gui_after self = [] ->
  ((gui_input_path self = "" \/ gui_output_path self = "") ->
     exists box,
       App_process_image self
       = with_messageboxes (gui_messageboxes self ++ [box]) self
       /\ gui_after (App_process_image self) = []
       /\ run_after (App_process_image self) w = (App_process_image self, w))
  /\ (gui_input_path self <> "" -> gui_output_path self <> "" ->
      gui_process_button (App_process_image self) = DISABLED
      /\ gui_processing (App_process_image self) = true
      /\ gui_progress (App_process_image self) = Some 10%Z
      /\ gui_status_text (App_process_image self) = "Processing image..."
      /\ gui_after (App_process_image self) = [(100%Z, after_do_process_image)]
      /\ exists self' w',
           run_after (App_process_image self) w = (self', w')
           /\ gui_process_button self' = NORMAL
           /\ gui_processing self' = false
           /\ gui_progress self' = None
           /\ gui_after self' = []
           /\ gui_status_text self' <> "Processing image...").
Proof.
  intros Hq. split.
  - intros Hempty. unfold App_process_image, StringVar_get.
    destruct (truthy (gui_input_path self)) eqn:Ti; cbn [negb].
    + destruct (truthy (gui_output_path self)) eqn:To; cbn [negb].
      * apply truthy_true in Ti, To. destruct Hempty; contradiction.
      * eexists. split; [reflexivity |]. unfold run_after, show. cbn.
        rewrite Hq. split; reflexivity.
    + eexists. split; [reflexivity |]. unfold run_after, show. cbn.
      rewrite Hq. split; reflexivity.
  - intros Hi Ho. apply truthy_true in Hi, Ho.
    unfold App_process_image, StringVar_get. rewrite Hi, Ho. cbn [negb].
    unfold run_after, root_after. cbn. rewrite Hq. cbn.
    repeat (split; [reflexivity |]).
    match goal with
    | |- context [App_do_process_image ?s w] =>
        destruct (App_do_process_image_run s w) as (r & w' & _ & _ & ->)
    end.
    eexists _, w'. split; [reflexivity |].
    unfold update_ui. destruct (truthy_result r); cbn;
      repeat split; try reflexivity; discriminate.
Qed.

End WindowProperties.

Lemma do_process_image_missing_input_witness :
  fs Demo.photos
    !! gui_input_path (with_output_path "/photos/out/none.jpg"
                         (with_input_path "/photos/none.nef" App_init))
    = None
  /\ exists self' w',
       @App_do_process_image Demo.externals
          (with_output_path "/photos/out/none.jpg"
             (with_input_path "/photos/none.nef" App_init)) Demo.photos
       = (self', w')
       /\ fs w' = fs Demo.photos
       /\ gui_status_text self' = "Image processing failed."
       /\ gui_view_button self' = DISABLED.
Proof.
  assert (H0 : fs Demo.photos
                 !! gui_input_path (with_output_path "/photos/out/none.jpg"
                                      (with_input_path "/photos/none.nef"
                                         App_init)) = None)
    by (vm_compute; reflexivity).
  split; [exact H0 |].
  destruct (@do_process_image_missing_input Demo.externals _ Demo.photos H0)
    as (self' & w' & E & Hfs & _ & Hst & Hv & _).
  exists self', w'. repeat split; assumption.
Defined.

Lemma process_image_then_callback_witness :
  gui_after (with_output_path "/photos/out/shot.jpg"
               (with_input_path "/photos/shot.nef" App_init)) = []
  /\ gui_process_button
       (App_process_image
          (with_output_path "/photos/out/shot.jpg"
             (with_input_path "/photos/shot.nef" App_init))) = DISABLED
  /\ exists self' w',
       @run_after Demo.externals
          (App_process_image
             (with_output_path "/photos/out/shot.jpg"
                (with_input_path "/photos/shot.nef" App_init))) Demo.photos
       = (self', w')
       /\ gui_process_button self' = NORMAL
       /\ gui_processing self' = false.
Proof.
  assert (H0 : gui_after (with_output_path "/photos/out/shot.jpg"
                            (with_input_path "/photos/shot.nef" App_init))
               = []) by reflexivity.
  split; [exact H0 |].
  destruct (proj2 (@process_image_then_callback Demo.externals _ Demo.photos
                     H0))
    as (Hb & _ & _ & _ & _ & self' & w' & E & Hn & Hp & _);
    [vm_compute; discriminate | vm_compute; discriminate |].
  split; [exact Hb |]. exists self', w'. repeat split; assumption.
Defined.

(** A whole run in the window, executed: both paths set, the button
    pressed, the queued callback run. *)
Example window_run :
  let '(self', w') :=
    @run_after Demo.externals
       (App_process_image
          (with_output_path "/photos/out/shot.jpg"
             (with_input_path "/photos/shot.nef" App_init))) Demo.photos in
  gui_status_text self' = "Image processed successfully: /photos/out/shot.jpg"
  /\ gui_last_processed_image self' = Some "/photos/out/shot.jpg"
  /\ gui_view_button self' = NORMAL
  /\ gui_process_button self' = NORMAL
  /\ fs w' !! "/photos/out/shot.jpg" = Some File.
Proof. vm_compute. repeat split; reflexivity. Qed.

(** ** The default output path *)

Section PathLemmas.

Local Abbreviation sep := PurePosixPath.sep.
Local Abbreviation split := PurePosixPath.split.
Local Abbreviation join := PurePosixPath.join.
Local Abbreviation sep_free := (Forall (fun a : ascii => a <> sep)).

Lemma split_nonempty (s : list ascii) : split s <> [].
Proof.
  destruct s as [| a s]; simpl; [discriminate |].
  destruct (decide (a = sep)); [discriminate |].
  destruct (split s); discriminate.
Qed.

Lemma split_sep_free (s : list ascii) : Forall sep_free (split s).
Proof.
  induction s as [| a s IH]; simpl; [repeat constructor |].
  destruct (decide (a = sep)) as [_ | Hne].
  - constructor; [constructor | exact IH].
  - destruct (split s) as [| seg rest]; [repeat constructor; exact Hne |].
    inversion IH as [| ? ? Hseg Hrest]; subst.
    constructor; [constructor; assumption | assumption].
Qed.

Lemma split_of_sep_free (k : list ascii) : sep_free k -> split k = [k].
Proof.
  induction 1 as [| a k Ha _ IH]; simpl; [reflexivity |].
  destruct (decide (a = sep)); [contradiction |]. now rewrite IH.
Qed.

Lemma last_split_cons_sep (s : list ascii) :
  last (split (sep :: s)) = last (split s).
Proof.
  simpl. destruct (decide (sep = sep)) as [_ | C]; [| contradiction].
  destruct (split s) as [| seg rest] eqn:E.
  - now apply split_nonempty in E.
  - reflexivity.
Qed.

Lemma split_two_segments (pre k : list ascii) :
  (2 <= length (split (pre ++ sep :: k)))%nat.
Proof.
  induction pre as [| a pre IH]; simpl.
  - destruct (decide (sep = sep)) as [_ | C]; [| contradiction].
    simpl. pose proof (split_nonempty k).
    destruct (split k); [contradiction | simpl; lia].
  - destruct (decide (a = sep)); [simpl; lia |].
    destruct (split (pre ++ sep :: k)); simpl in *; lia.
Qed.

Lemma last_split_after_sep (pre k : list ascii) :
  last (split (pre ++ sep :: k)) = last (split k).
Proof.
  induction pre as [| a pre IH]; [apply last_split_cons_sep |].
  change ((a :: pre) ++ sep :: k) with (a :: (pre ++ sep :: k)).
  pose proof (split_two_segments pre k) as L.
  simpl. destruct (decide (a = sep)) as [-> | Hne].
  - destruct (split (pre ++ sep :: k)) as [| seg rest] eqn:E;
      [simpl in L; lia |].
    rewrite <- IH. reflexivity.
  - destruct (split (pre ++ sep :: k)) as [| seg [| seg' rest]] eqn:E;
      [simpl in L; lia | simpl in L; lia |].
    rewrite <- IH. reflexivity.
Qed.

Lemma last_split_lstrip (s : list ascii) :
  last (split (PurePosixPath.lstrip s)) = last (split s).
Proof.
  induction s as [| a s IH]; [reflexivity |].
  cbn [PurePosixPath.lstrip]. destruct (decide (a = sep)) as [-> | Hne].
  - rewrite IH. symmetry. apply last_split_cons_sep.
  - reflexivity.
Qed.

Lemma last_filter {A : Type} (P : A -> Prop) `{!forall x, Decision (P x)}
    (l : list A) (x : A) :
  last l = Some x -> P x -> last (filter P l) = Some x.
Proof.
  intros Hl Hx. apply last_Some in Hl as [l' ->].
  rewrite filter_app. cbn. rewrite decide_True by exact Hx.
  apply last_snoc.
Qed.

Lemma rfind_lookup (c : ascii) (s : list ascii) (i : nat) :
  PurePosixPath.rfind c s = Some i -> s !! i = Some c.
Proof.
  revert i. induction s as [| a s IH]; intros i; simpl; [discriminate |].
  destruct (PurePosixPath.rfind c s) as [j |].
  - intros [= <-]. simpl. now apply IH.
  - destruct (decide (a = c)) as [-> | _]; [| discriminate].
    now intros [= <-].
Qed.

Lemma join_snoc (l : list (list ascii)) (k : list ascii) :
  join (l ++ [k]) = match l with
                    | [] => k
                    | _ :: _ => join l ++ sep :: k
                    end.
Proof.
  induction l as [| p l IH]; [reflexivity |].
  cbn [app join]. destruct l as [| q l].
  - reflexivity.
  - cbn [app] in *. rewrite IH. now rewrite <- app_assoc.
Qed.

Local Abbreviation sfx := (list_ascii_of_string "_processed.jpg").

Lemma Path_parts_sep_free (s : list ascii) :
  Forall sep_free (PurePosixPath.parts (PurePosixPath.Path s)).
Proof.
  unfold PurePosixPath.Path.
  destruct (PurePosixPath.splitroot s) as [r rel]. cbn.
  apply Forall_forall. intros x Hx. apply list_elem_of_filter in Hx as [_ Hx].
  pose proof (split_sep_free rel) as F.
  rewrite Forall_forall in F. now apply F.
Qed.

Lemma name_sep_free (p : PurePosixPath.t) :
  Forall sep_free (PurePosixPath.parts p) -> sep_free (PurePosixPath.name p).
Proof.
  intros F. unfold PurePosixPath.name.
  destruct (last (PurePosixPath.parts p)) as [x |] eqn:E; [| constructor].
  cbn. rewrite Forall_forall in F. apply F.
  now apply last_Some_elem_of.
Qed.

Lemma stem_sep_free (p : PurePosixPath.t) :
  Forall sep_free (PurePosixPath.parts p) -> sep_free (PurePosixPath.stem p).
Proof.
  intros F. pose proof (name_sep_free p F) as N. unfold PurePosixPath.stem.
  destruct (PurePosixPath.rfind _ _) as [i |]; [| exact N].
  destruct (_ && _); [| exact N]. now apply Forall_take.
Qed.

(** The generated name is never the name it was generated from. *)
Lemma stem_suffix_ne_name (p : PurePosixPath.t) :
  PurePosixPath.stem p ++ sfx <> PurePosixPath.name p.
Proof.
  unfold PurePosixPath.stem. set (n := PurePosixPath.name p).
  assert (Hlen : n ++ sfx <> n).
  { intros C. apply (f_equal length) in C. rewrite length_app in C.
    cbn in C. lia. }
  destruct (PurePosixPath.rfind PurePosixPath.dot n) as [i |] eqn:E;
    [| exact Hlen].
  destruct (_ && _); [| exact Hlen].
  apply rfind_lookup in E. intros C.
  rewrite <- (take_drop i n) in C at 2. apply app_inv_head in C.
  rewrite <- (take_drop i n), lookup_app_r in E
    by (rewrite length_take; lia).
  rewrite <- C in E. rewrite length_take in E.
  assert (Hi : (i <= length n)%nat).
  { destruct (Nat.le_gt_cases i (length n)) as [L | L]; [exact L |].
    rewrite drop_ge in C by lia. discriminate. }
  replace (i - i `min` length n)%nat with 0%nat in E by lia.
  cbn in E. discriminate.
Qed.

Lemma Path_of_component (k : list ascii) :
  sep_free k -> k <> [] -> k <> [PurePosixPath.dot] ->
  PurePosixPath.Path k = PurePosixPath.mk [] [k].
Proof.
  intros F Hne Hdot. unfold PurePosixPath.Path, PurePosixPath.splitroot.
  destruct k as [| a k]; [contradiction |].
  inversion F as [| ? ? Ha Hk]; subst.
  destruct (decide (a = sep)); [contradiction |].
  rewrite (split_of_sep_free _ F). cbn.
  rewrite decide_True by (split; assumption). reflexivity.
Qed.

Lemma Path_root_shape (s : list ascii) :
  PurePosixPath.root (PurePosixPath.Path s) = []
  \/ exists pre, PurePosixPath.root (PurePosixPath.Path s) = pre ++ [sep].
Proof.
  unfold PurePosixPath.Path, PurePosixPath.splitroot.
  destruct s as [| a s]; [now left |].
  destruct (decide (a = sep)); [| now left].
  destruct (decide _); cbn; right; [now exists [sep] | now exists []].
Qed.

Lemma name_of_last_split (s x : list ascii) :
  last (split s) = Some x -> x <> [] -> x <> [PurePosixPath.dot] ->
  PurePosixPath.name (PurePosixPath.Path s) = x.
Proof.
  intros Hl Hne Hdot.
  assert (Hrel : exists r rel, PurePosixPath.splitroot s = (r, rel)
                               /\ last (split rel) = Some x).
  { unfold PurePosixPath.splitroot. destruct s as [| a s].
    - eexists _, _. split; [reflexivity | exact Hl].
    - destruct (decide (a = sep)) as [-> | _].
      + destruct (decide _); eexists _, _; (split; [reflexivity |]);
          now rewrite last_split_lstrip.
      + eexists _, _. split; [reflexivity | exact Hl]. }
  destruct Hrel as (r & rel & E & Hlast).
  unfold PurePosixPath.Path, PurePosixPath.name. rewrite E. cbn.
  rewrite (last_filter _ _ x Hlast); [reflexivity | now split].
Qed.

(** The characters of the default output path: a prefix that is empty or
    ends with a slash, then the stem, then "_processed.jpg". *)
Lemma default_output_chars (s : list ascii) :
  exists pre,
    PurePosixPath.str
      (PurePosixPath.truediv (PurePosixPath.parent (PurePosixPath.Path s))
         (PurePosixPath.stem (PurePosixPath.Path s) ++ sfx))
    = pre ++ PurePosixPath.stem (PurePosixPath.Path s) ++ sfx
    /\ (pre = [] \/ exists pre0, pre = pre0 ++ [sep]).
Proof.
  set (p := PurePosixPath.Path s). set (key := PurePosixPath.stem p ++ sfx).
  assert (Fk : sep_free key).
  { apply Forall_app. split.
    - apply stem_sep_free, Path_parts_sep_free.
    - cbn. repeat constructor; discriminate. }
  assert (Hne : key <> []).
  { intros C. apply (f_equal length) in C. unfold key in C.
    rewrite length_app in C. cbn in C. lia. }
  assert (Hdot : key <> [PurePosixPath.dot]).
  { intros C. apply (f_equal length) in C. unfold key in C.
    rewrite length_app in C. cbn in C. lia. }
  unfold PurePosixPath.truediv. rewrite (Path_of_component key Fk Hne Hdot).
  cbn [PurePosixPath.root PurePosixPath.parts PurePosixPath.parent].
  unfold PurePosixPath.str.
  cbn [PurePosixPath.root PurePosixPath.parts].
  set (l := removelast (PurePosixPath.parts p)).
  assert (Hstr : match PurePosixPath.root p, l ++ [key] with
                 | [], [] => [PurePosixPath.dot]
                 | r, ps => r ++ join ps
                 end = PurePosixPath.root p ++ join (l ++ [key])).
  { destruct (PurePosixPath.root p); [| reflexivity].
    destruct l; reflexivity. }
  rewrite Hstr, join_snoc.
  destruct (Path_root_shape s) as [Hr | [r0 Hr]]; fold p in Hr; rewrite Hr.
  - destruct l as [| q l'].
    + exists []. split; [reflexivity | now left].
    + exists (join (q :: l') ++ [sep]). split.
      * rewrite <- app_assoc. reflexivity.
      * right. now exists (join (q :: l')).
  - destruct l as [| q l'].
    + exists (r0 ++ [sep]). split; [reflexivity |]. right. now exists r0.
    + exists ((r0 ++ [sep]) ++ join (q :: l') ++ [sep]). split.
      * rewrite <- !app_assoc. reflexivity.
      * right. exists ((r0 ++ [sep]) ++ join (q :: l')).
        now rewrite <- !app_assoc.
Qed.

Lemma string_of_list_ascii_app (a b : list ascii) :
  string_of_list_ascii (a ++ b)
  = string_of_list_ascii a +:+ string_of_list_ascii b.
Proof. induction a as [| c a IH]; cbn; [reflexivity | now rewrite IH]. Qed.

End PathLemmas.

(** X17.  The output path [browse_input_file] proposes (POSIX paths)
    always ends with "_processed.jpg" and is never the selected file
    itself, so accepting the proposal cannot overwrite the RAW input.  A
    cancelled dialog (empty file name) changes nothing; otherwise only the
    two path variables change. *)
Theorem browse_input_file_default_output (filename : string) (self : gui) :
  (filename = "" -> App_browse_input_file filename self = self)
  /\ (filename <> "" ->
      App_browse_input_file filename self
      = with_output_path (default_output filename)
          (with_input_path filename self))
  /\ default_output filename <> filename
  /\ exists prefix, default_output filename = prefix +:+ "_processed.jpg".
Proof.
  split; [| split; [| split]].
  - intros ->. reflexivity.
  - intros Hne. unfold App_browse_input_file.
    apply truthy_true in Hne. now rewrite Hne.
  - unfold default_output.
    set (s := list_ascii_of_string filename).
    destruct (default_output_chars s) as (pre & E & Hpre).
    rewrite E. intros C.
    apply (f_equal list_ascii_of_string) in C.
    rewrite list_ascii_of_string_of_list_ascii in C. fold s in C.
    set (key := PurePosixPath.stem (PurePosixPath.Path s)
                ++ list_ascii_of_string "_processed.jpg") in *.
    assert (Fk : Forall (fun a : ascii => a <> PurePosixPath.sep) key).
    { apply Forall_app. split.
      - apply stem_sep_free, Path_parts_sep_free.
      - cbn. repeat constructor; discriminate. }
    assert (Hlast : last (PurePosixPath.split s) = Some key).
    { rewrite <- C. destruct Hpre as [-> | [pre0 ->]].
      - cbn [app]. now rewrite (split_of_sep_free key Fk).
      - rewrite <- app_assoc. cbn [app].
        rewrite last_split_after_sep. now rewrite (split_of_sep_free key Fk). }
    assert (Hname : PurePosixPath.name (PurePosixPath.Path s) = key).
    { apply (name_of_last_split s key Hlast);
        intros D; apply (f_equal length) in D; unfold key in D;
        rewrite length_app in D; cbn in D; lia. }
    exact (stem_suffix_ne_name (PurePosixPath.Path s) (eq_sym Hname)).
  - unfold default_output.
    destruct (default_output_chars (list_ascii_of_string filename))
      as (pre & E & _).
    rewrite E, app_assoc, string_of_list_ascii_app.
    rewrite string_of_list_ascii_of_string. eauto.
Qed.

(** The proposal for some file names, computed. *)
Example default_output_run :
  default_output <$> ["/home/u/IMG_001.CR2"; "shot.nef"; "/a/b.tar.gz";
                      "/a/./b//c.nef"; "/a/b_processed.jpg"; "/a/.hidden"]
  = ["/home/u/IMG_001_processed.jpg"; "shot_processed.jpg";
     "/a/b.tar_processed.jpg"; "/a/b/c_processed.jpg";
     "/a/b_processed_processed.jpg"; "/a/.hidden_processed.jpg"].
Proof. vm_compute. reflexivity. Qed.

Section ViewResultProperties.
Context `{Externals} `{Viewer}.

(** Without a recorded image whose path exists, [view_result] only shows
    a box. *)
Lemma view_result_guard (self : gui) (w : world) :
  (gui_last_processed_image self = None
   \/ exists path, gui_last_processed_image self = Some path
                   /\ (path = "" \/ fs w !! path = None)) ->
  App_view_result self w
  = (show (showerror "Error" "No processed image available to view.") self, w).
Proof.
  intros Hm. unfold App_view_result.
  destruct Hm as [-> | (path & -> & Hp)]; [reflexivity |].
  destruct Hp as [-> | Hp]; [reflexivity |].
  rewrite bool_decide_eq_false_2
    by (rewrite Hp; intros [x Hx]; discriminate).
  rewrite orb_true_r. reflexivity.
Qed.

(** X18.  If no image has been processed yet and a run fails
    ([process_raw_image] returns [None]), then [view_result] afterwards
    opens and plots nothing, in whatever world it is called: it shows the
    "No processed image available to view." box.  The same holds after a
    run that succeeded when the recorded path no longer exists. *)
Theorem view_result_after_failed_run (self : gui) (w w1 w2 : world) :
  gui_last_processed_image self = None ->
  process_raw_image (gui_input_path self) (gui_output_path self)
    (scale_parameters (gui_vars self)) w = (Ok None, w1) ->
  exists self',
    App_do_process_image self w = (self', w1)
    /\ gui_last_processed_image self' = None
    /\ App_view_result self' w2
       = (show (showerror "Error" "No processed image available to view.")
            self', w2)
    /\ forall (self'' : gui) (path : string),
         gui_last_processed_image self'' = Some path ->
         fs w2 !! path = None ->
         App_view_result self'' w2
         = (show (showerror "Error" "No processed image available to view.")
              self'', w2).
Proof.
  intros Hl E. eexists. split.
  { unfold App_do_process_image, StringVar_get. rewrite E. reflexivity. }
  split; [exact Hl |]. split.
  - apply view_result_guard. left. exact Hl.
  - intros self'' path Hp Hfs. apply view_result_guard. right.
    exists path. auto.
Qed.


End ViewResultProperties.

Lemma view_result_after_failed_run_witness :
  gui_last_processed_image
    (with_output_path "/photos/out/none.jpg"
       (with_input_path "/photos/none.nef" App_init)) = None
  /\ exists self',
       gui_last_processed_image self' = None
       /\ @App_view_result Demo.externals DemoViewer.viewer self' Demo.photos
          = (show (showerror "Error" "No processed image available to view.")
               self', Demo.photos).
Proof.
  assert (H0 : gui_last_processed_image
                 (with_output_path "/photos/out/none.jpg"
                    (with_input_path "/photos/none.nef" App_init)) = None)
    by reflexivity.
  split; [exact H0 |].
  destruct (@view_result_after_failed_run Demo.externals DemoViewer.viewer
              (with_output_path "/photos/out/none.jpg"
                 (with_input_path "/photos/none.nef" App_init))
              Demo.photos
              (World (fs Demo.photos)
                 ["Error: Input file '/photos/none.nef' does not exist."])
              Demo.photos H0)
    as (self' & _ & Hn & Hv & _); [vm_compute; reflexivity |].
  exists self'. split; assumption.
Defined.


Section MoreOrchestration.
Context `{Externals}.


(** X21.  The output directory is made only when it is named and
    absent: with an output path without directory part, or with a directory
    that exists, nothing is done before decoding.  When it has to be made
    and [os.makedirs] raises, the call returns [None] with the exception's
    text in the "Error processing image" line, in the world [os.makedirs]
    left: the decoder and the encoder are not run. *)
Theorem output_dir_handling (input_path output_path : string)
    (p : FilterParameters) (w : world) :
  ((os_path_dirname output_path = ""
    \/ is_Some (fs w !! os_path_dirname output_path)) ->
   create_output_dir output_path w = (Ok tt, w))
  /\ (forall e w1,
        is_Some (fs w !! input_path) ->
        os_path_dirname output_path <> "" ->
        fs w !! os_path_dirname output_path = None ->
        os_makedirs (os_path_dirname output_path) w = (Raise e, w1) ->
        process_raw_image input_path output_path p w
        = (Ok None,
           World (fs w1)
             (stdout w1 ++ ["Error processing image: " +:+ str e]))).
Proof.
  split.
  - intros Hd. unfold create_output_dir.
    destruct (decide (os_path_dirname output_path = "")) as [E | E].
    + rewrite bool_decide_eq_false_2 by (intros C; apply C, E). reflexivity.
    + rewrite bool_decide_eq_true_2 by exact E.
      destruct Hd as [Hd | Hd]; [contradiction |].
      unfold mbind, M_bind. rewrite os_path_exists_run.
      rewrite bool_decide_eq_true_2 by exact Hd. reflexivity.
  - intros e w1 Hin Hne Habs Hmk.
    apply raise_is_caught. unfold process_raw_image_try.
    unfold mbind at 1, M_bind at 1. rewrite os_path_exists_run.
    rewrite bool_decide_eq_true_2 by exact Hin. cbn [negb].
    unfold mbind at 1, M_bind at 1. unfold create_output_dir.
    rewrite bool_decide_eq_true_2 by exact Hne.
    unfold mbind at 1, M_bind at 1. rewrite os_path_exists_run.
    rewrite bool_decide_eq_false_2
      by (rewrite Habs; intros [x Hx]; discriminate).
    cbn [negb]. rewrite Hmk. reflexivity.
Qed.

End MoreOrchestration.

